(** * One-time-token session plugin: token lifecycle

    A shallow embedding of the plugin's two endpoints
    ([generateOneTimeTokenSession] and [verifyOneTimeTokenSession], index.ts)
    and of its key hasher ([defaultKeyHasher], utils.ts), together with the
    properties of the token lifecycle: issuance, storage transform, expiry,
    single-use consumption and session issuance.

    Conventions of the embedding.
    - A JavaScript string is a Rocq [string], read as the sequence of bytes of
      its UTF-8 encoding (what [Hash.update] feeds to the digest).
    - A [Date] is its time value, an integer number of milliseconds ([Z]).
      [expiresIn] ranges over whole minutes.
    - A handler is a computation over the store that may throw: it maps a
      [World] to an outcome and the [World] it leaves behind.  A throw keeps
      every store mutation made before it. *)

From Stdlib Require Import ZArith List String Ascii Bool Lia.
Import ListNotations.

Local Open Scope Z_scope.
Local Open Scope string_scope.

(* ===================================================================== *)
(** ** SHA-256 (the digest selected by [createHash("sha256")]) *)
(* ===================================================================== *)

Module Sha256.

Definition wrap (x : Z) : Z := x mod 2 ^ 32.

Definition plus32 (x y : Z) : Z := wrap (x + y).

Definition rotr (x n : Z) : Z :=
  Z.lor (Z.shiftr x n) (wrap (Z.shiftl x (32 - n))).

Definition inv32 (x : Z) : Z := Z.lxor x (2 ^ 32 - 1).

Definition choose (e f g : Z) : Z :=
  Z.lxor (Z.land e f) (Z.land (inv32 e) g).

Definition majority (a b c : Z) : Z :=
  Z.lxor (Z.lxor (Z.land a b) (Z.land a c)) (Z.land b c).

Definition bigS0 (a : Z) : Z := Z.lxor (Z.lxor (rotr a 2) (rotr a 13)) (rotr a 22).
Definition bigS1 (e : Z) : Z := Z.lxor (Z.lxor (rotr e 6) (rotr e 11)) (rotr e 25).
Definition smallS0 (x : Z) : Z := Z.lxor (Z.lxor (rotr x 7) (rotr x 18)) (Z.shiftr x 3).
Definition smallS1 (x : Z) : Z := Z.lxor (Z.lxor (rotr x 17) (rotr x 19)) (Z.shiftr x 10).

(** The constants of the standard are the first 32 bits of the fractional
    parts of roots of the first primes: cube roots of the first sixty-four
    for the rounds, square roots of the first eight for the chaining words. *)
Definition isPrime (n : nat) : bool :=
  forallb (fun d => negb (Nat.eqb (Nat.modulo n d) 0)) (seq 2 (n - 2)).

Definition primes : list Z :=
  Eval vm_compute in map Z.of_nat (filter isPrime (seq 2 310)).

Definition cubeRoot (n : Z) : Z :=
  fold_left
    (fun r bit =>
       let r' := r + 2 ^ Z.of_nat bit in
       if (r' * r' * r' <=? n)%Z then r' else r)
    (rev (seq 0 40)) 0.

Definition round_constants : list Z :=
  Eval vm_compute in map (fun q => wrap (cubeRoot (q * 2 ^ 96))) primes.

(** The eight chaining words. *)
Record chain := Chain { h0 : Z; h1 : Z; h2 : Z; h3 : Z; h4 : Z; h5 : Z; h6 : Z; h7 : Z }.

Definition chainOf (ws : list Z) : chain :=
  Chain (nth 0 ws 0) (nth 1 ws 0) (nth 2 ws 0) (nth 3 ws 0)
        (nth 4 ws 0) (nth 5 ws 0) (nth 6 ws 0) (nth 7 ws 0).

Definition initial : chain :=
  Eval vm_compute in
    chainOf (map (fun q => wrap (Z.sqrt (q * 2 ^ 64))) (firstn 8 primes)).

(** Padding: a 1 bit, zeros up to 56 mod 64, then the bit length on 8 bytes. *)
Definition be_bytes (width : nat) (x : Z) : list Z :=
  map (fun i => Z.land (Z.shiftr x (8 * Z.of_nat i)) 255) (rev (seq 0 width)).

Definition pad (msg : list Z) : list Z :=
  let len := Z.of_nat (List.length msg) in
  (msg ++ [128] ++ repeat 0 (Z.to_nat ((55 - len) mod 64)) ++ be_bytes 8 (8 * len))%list.

Fixpoint words_of (bs : list Z) : list Z :=
  match bs with
  | a :: b :: c :: d :: rest =>
      (Z.shiftl a 24 + Z.shiftl b 16 + Z.shiftl c 8 + d) :: words_of rest
  | _ => []
  end.

Fixpoint blocks (count : nat) (ws : list Z) : list (list Z) :=
  match count with
  | O => []
  | S count' => firstn 16 ws :: blocks count' (skipn 16 ws)
  end.

(** Message schedule: sixteen block words extended to sixty-four. *)
Definition extend (ws : list Z) (t : nat) : list Z :=
  let at_ k := nth (t - k) ws 0 in
  (ws ++ [plus32 (plus32 (smallS1 (at_ 2%nat)) (at_ 7%nat))
                 (plus32 (smallS0 (at_ 15%nat)) (at_ 16%nat))])%list.

Definition schedule (block : list Z) : list Z :=
  fold_left extend (seq 16 48) block.

Definition round (s : chain) (kw : Z * Z) : chain :=
  let t1 := plus32 (plus32 (plus32 (h7 s) (bigS1 (h4 s))) (choose (h4 s) (h5 s) (h6 s)))
                   (plus32 (fst kw) (snd kw)) in
  let t2 := plus32 (bigS0 (h0 s)) (majority (h0 s) (h1 s) (h2 s)) in
  Chain (plus32 t1 t2) (h0 s) (h1 s) (h2 s) (plus32 (h3 s) t1) (h4 s) (h5 s) (h6 s).

Definition compress (s : chain) (block : list Z) : chain :=
  let r := fold_left round (combine round_constants (schedule block)) s in
  Chain (plus32 (h0 s) (h0 r)) (plus32 (h1 s) (h1 r)) (plus32 (h2 s) (h2 r))
        (plus32 (h3 s) (h3 r)) (plus32 (h4 s) (h4 r)) (plus32 (h5 s) (h5 r))
        (plus32 (h6 s) (h6 r)) (plus32 (h7 s) (h7 r)).

Definition digest (msg : list Z) : list Z :=
  let padded := pad msg in
  let s := fold_left compress
             (blocks (Nat.div (List.length padded) 64) (words_of padded)) initial in
  flat_map (be_bytes 4) [h0 s; h1 s; h2 s; h3 s; h4 s; h5 s; h6 s; h7 s].

End Sha256.

(* ===================================================================== *)
(** ** Buffers and their base64url rendering *)
(* ===================================================================== *)

Definition bytes_of_string (s : string) : list Z :=
  map (fun c => Z.of_N (N_of_ascii c)) (list_ascii_of_string s).

Definition hex_digit (n : Z) : ascii :=
  match String.get (Z.to_nat n) "0123456789abcdef" with
  | Some c => c
  | None => "?"%char
  end.

Fixpoint hex_of_bytes (bs : list Z) : string :=
  match bs with
  | [] => ""
  | b :: rest => String (hex_digit (Z.shiftr b 4)) (String (hex_digit (Z.land b 15)) (hex_of_bytes rest))
  end.

Module Base64Url.

Definition alphabet : string :=
  "ABCDEFGHIJKLMNOPQRSTUVWXYZabcdefghijklmnopqrstuvwxyz0123456789-_".

Definition sextet (n : Z) : ascii :=
  match String.get (Z.to_nat (Z.land n 63)) alphabet with
  | Some c => c
  | None => "="%char
  end.

(** [Buffer.toString("base64url")]: three bytes give four characters, a
    trailing group of one or two bytes gives two or three, and no ['=']
    is appended. *)
Fixpoint encode (bs : list Z) : string :=
  match bs with
  | [] => ""
  | [a] =>
      String (sextet (Z.shiftr a 2)) (String (sextet (Z.shiftl a 4)) "")
  | [a; b] =>
      String (sextet (Z.shiftr a 2))
        (String (sextet (Z.lor (Z.shiftl a 4) (Z.shiftr b 4)))
           (String (sextet (Z.shiftl b 2)) ""))
  | a :: b :: c :: rest =>
      String (sextet (Z.shiftr a 2))
        (String (sextet (Z.lor (Z.shiftl a 4) (Z.shiftr b 4)))
           (String (sextet (Z.lor (Z.shiftl b 2) (Z.shiftr c 6)))
              (String (sextet c) (encode rest))))
  end.

End Base64Url.

(* ===================================================================== *)
(** ** utils.ts *)
(* ===================================================================== *)

(** [createHash("sha256").update(token).digest().toString("base64url")]. *)
Definition defaultKeyHasher (token : string) : string :=
  let hash := Sha256.digest (bytes_of_string token) in
  Base64Url.encode hash.

(* ===================================================================== *)
(** ** Data model *)
(* ===================================================================== *)

Module User.
Record t := Make { id : string; email : string }.
End User.

Module Session.
(** The external session entity: store-defined identity, the owning user
    and the durable token by which the session store finds it again. *)
Record t := Make { id : nat; userId : string; token : string }.
End Session.

(** What [findSession] resolves and what [c.context.session] holds. *)
Module SessionPair.
Record t := Make { session : Session.t; user : User.t }.
End SessionPair.

Module Verification.
Record t := Make { id : nat; identifier : string; value : string; expiresAt : Z }.
End Verification.

(** Errors raised towards the caller: [c.error(status, { message })] of the
    handlers, and the rejection of a body by the endpoint's schema. *)
Inductive APIError : Type :=
| ApiError (status message : string)
| ValidationError (message : string).

Definition c_error (status message : string) : APIError := ApiError status message.

(** Modelled from the spec: the request layer that checks the body schema is
    not part of the plugin; a body it rejects is a [BAD_REQUEST]-class
    failure (spec 4.3, 6 and 7, [InvalidInput]). *)
Definition statusOf (e : APIError) : string :=
  match e with
  | ApiError status _ => status
  | ValidationError _ => "BAD_REQUEST"
  end.

(** Adapter calls, in the order they take effect. *)
Inductive Op : Type :=
| CreateVerificationValue (identifier : string)
| FindVerificationValue (identifier : string)
| DeleteVerificationValue (id : nat)
| FindSession (token : string)
| CreateSession (userId : string)
| SetSessionCookie (sessionToken : string).

(** Everything a handler can read or change: the verification table, the
    session store, the identities the store hands out, the session cookies
    written to responses and the journal of adapter calls. *)
Record World := MkWorld {
  verifications : list Verification.t;
  sessions : list Session.t;
  users : list User.t;
  nextId : nat;
  cookies : list SessionPair.t;
  journal : list Op
}.

(* ===================================================================== *)
(** ** Handlers as computations that may throw *)
(* ===================================================================== *)

Definition M (A : Type) : Type := World -> (APIError + A) * World.

Definition ret {A : Type} (a : A) : M A := fun w => (inr a, w).

Definition throw {A : Type} (e : APIError) : M A := fun w => (inl e, w).

Definition bind {A B : Type} (m : M A) (k : A -> M B) : M B :=
  fun w =>
    match m w with
    | (inl e, w') => (inl e, w')
    | (inr a, w') => k a w'
    end.

Declare Scope handler_scope.
Delimit Scope handler_scope with handler.
Notation "x <- m ;; k" := (bind m (fun x => k))
  (at level 61, m at next level, right associativity) : handler_scope.
Notation "m ;; k" := (bind m (fun _ => k))
  (at level 61, right associativity) : handler_scope.
Local Open Scope handler_scope.

(* ===================================================================== *)
(** ** The store ([c.context.internalAdapter]) and the cookie writer *)
(* ===================================================================== *)

Module internalAdapter.

Definition record (op : Op) (w : World) : World :=
  MkWorld (verifications w) (sessions w) (users w) (nextId w) (cookies w)
          (journal w ++ [op]).

(** Modelled from the spec: the verification store is a generic table with
    create, find by identifier and delete; the store assigns [id]; records
    under one identifier are not deduplicated (spec 1 and 3).  A lookup
    returns the record created last. *)
Definition createVerificationValue (value identifier : string) (expiresAt : Z)
  : M Verification.t :=
  fun w =>
    let v := Verification.Make (nextId w) identifier value expiresAt in
    (inr v,
     record (CreateVerificationValue identifier)
       (MkWorld (v :: verifications w) (sessions w) (users w) (S (nextId w))
                (cookies w) (journal w))).

(** Modelled from the spec: find by identifier (spec 1).  Two choices here go
    beyond the spec's words: of several records under the identifier the
    lookup returns the one created last, and it removes nothing.  The
    statements under [AnyStore] hold for every store, one that sweeps
    expired records on a lookup included. *)
Definition findVerificationValue (identifier : string) : M (option Verification.t) :=
  fun w =>
    (inr (find (fun v => String.eqb (Verification.identifier v) identifier)
               (verifications w)),
     record (FindVerificationValue identifier) w).

(** Modelled from the spec: delete by the store-assigned [id] (spec 3); it
    returns nothing to the handler. *)
Definition deleteVerificationValue (id : nat) : M unit :=
  fun w =>
    (inr tt,
     record (DeleteVerificationValue id)
       (MkWorld (filter (fun v => negb (Nat.eqb (Verification.id v) id)) (verifications w))
                (sessions w) (users w) (nextId w) (cookies w) (journal w))).

(** Modelled from the spec: the session store is a generic store with
    create and find; a session is found by its durable token and comes with
    its user (spec 1 and 3). *)
Definition lookupSession (w : World) (token : string) : option SessionPair.t :=
  match find (fun s => String.eqb (Session.token s) token) (sessions w) with
  | None => None
  | Some s =>
      match find (fun u => String.eqb (User.id u) (Session.userId s)) (users w) with
      | None => None
      | Some u => Some (SessionPair.Make s u)
      end
  end.

(** Modelled from the spec: the session store's find (spec 1). *)
Definition findSession (token : string) : M (option SessionPair.t) :=
  fun w => (inr (lookupSession w token), record (FindSession token) w).

(** Modelled from the spec: the session store's create (spec 1 and 4.3,
    step 6).  The new session's durable token is drawn by the store; [drawn]
    is that draw. *)
Definition createSession (userId : string) (drawn : string) : M Session.t :=
  fun w =>
    let s := Session.Make (nextId w) userId drawn in
    (inr s,
     record (CreateSession userId)
       (MkWorld (verifications w) (s :: sessions w) (users w) (S (nextId w))
                (cookies w) (journal w))).

End internalAdapter.

(** Modelled from the spec: [setSessionCookie] of the cookie transport makes
    the given session the caller's active session (spec 4.3, step 6). *)
Definition setSessionCookie (p : SessionPair.t) : M unit :=
  fun w =>
    (inr tt,
     internalAdapter.record (SetSessionCookie (Session.token (SessionPair.session p)))
       (MkWorld (verifications w) (sessions w) (users w) (nextId w)
                (p :: cookies w) (journal w))).

(* ===================================================================== *)
(** ** index.ts: options *)
(* ===================================================================== *)

(** What an endpoint call sees of [c], besides the store. *)
Record GenerateCtx := {
  request : bool;                 (* [c.request] is present *)
  context_session : SessionPair.t; (* [c.context.session], set by [sessionMiddleware] *)
  generate_now : Z;               (* [Date.now()] *)
  random32 : string               (* [generateRandomString(32)] *)
}.

Record VerifyCtx := {
  body_token : string;            (* [c.body.token] *)
  verify_now : Z;                 (* [new Date()] *)
  drawn_token : string            (* the token the store draws for a new session *)
}.

(** [storeToken]; the custom [hash], like [generateToken] below, is taken
    when its promise resolves.  [AnyStore] has them as promises that may
    reject. *)
Inductive StoreToken : Type :=
| plain
| hashed
| custom_hasher (hash : string -> string).

(** [OneTimeTokenSessionOptions], for an object whose present properties all
    have values; an absent property is [None].  [OptionsObject] below adds
    the properties that are present and undefined, and [mergeOptions] merges
    those as the spread does. *)
Record OneTimeTokenSessionOptions := {
  opt_expiresIn : option Z;
  opt_disableClientRequest : option bool;
  opt_generateToken : option (SessionPair.t -> GenerateCtx -> string);
  opt_storeToken : option StoreToken;
  opt_createSession : option bool
}.

(** [opts] when its lifetime is a number: the defaults overridden by the
    properties of [options] ([toOpts] gives it for any options object). *)
Record Opts := {
  expiresIn : Z;
  disableClientRequest : bool;
  generateToken : option (SessionPair.t -> GenerateCtx -> string);
  storeTokenOption : StoreToken;
  createSession : bool
}.

Definition orElse {A : Type} (o : option A) (d : A) : A :=
  match o with Some a => a | None => d end.

Definition oneTimeTokenSession (options : option OneTimeTokenSessionOptions) : Opts :=
  match options with
  | None =>
      {| expiresIn := 3; disableClientRequest := false; generateToken := None;
         storeTokenOption := plain; createSession := true |}
  | Some o =>
      {| expiresIn := orElse (opt_expiresIn o) 3;
         disableClientRequest := orElse (opt_disableClientRequest o) false;
         generateToken := opt_generateToken o;
         storeTokenOption := orElse (opt_storeToken o) plain;
         createSession := orElse (opt_createSession o) true |}
  end.

(** [storeToken(ctx, token)]: the storage transform. *)
Definition storeToken (opts : Opts) (token : string) : string :=
  match storeTokenOption opts with
  | hashed => defaultKeyHasher token
  | custom_hasher hash => hash token
  | plain => token
  end.

Definition identifierOf (opts : Opts) (token : string) : string :=
  "one-time-token:" ++ storeToken opts token.

(* ===================================================================== *)
(** ** index.ts: the two endpoints *)
(* ===================================================================== *)

Module GenerateResponse.
Record t := Make { token : string }.
End GenerateResponse.

Module VerifyResponse.
Record t := Make { session : Session.t; user : User.t; token : option string }.
End VerifyResponse.

Definition generateOneTimeTokenSession (opts : Opts) (c : GenerateCtx)
  : M GenerateResponse.t :=
  if disableClientRequest opts && request c then
    throw (c_error "BAD_REQUEST" "Client requests are disabled")
  else
    let session := context_session c in
    let token :=
      match generateToken opts with
      | Some generate => generate session c
      | None => random32 c
      end in
    let expiresAt := generate_now c + expiresIn opts * 60 * 1000 in
    let storedToken := storeToken opts token in
    _ <- internalAdapter.createVerificationValue
           (Session.token (SessionPair.session session))
           ("one-time-token:" ++ storedToken)
           expiresAt ;;
    ret (GenerateResponse.Make token).

(** [z.string().min(1, "Token is required")]. *)
Definition tokenSchema (token : string) : bool := (1 <=? String.length token)%nat.

Definition verifyHandler (opts : Opts) (c : VerifyCtx) : M VerifyResponse.t :=
  let token := body_token c in
  let storedToken := storeToken opts token in
  verificationValue <-
    internalAdapter.findVerificationValue ("one-time-token:" ++ storedToken) ;;
  match verificationValue with
  | None => throw (c_error "BAD_REQUEST" "Invalid token")
  | Some verificationValue =>
      if (Verification.expiresAt verificationValue <? verify_now c)%Z then
        internalAdapter.deleteVerificationValue (Verification.id verificationValue) ;;
        throw (c_error "BAD_REQUEST" "Token expired")
      else
        (* Delete the verification value first to prevent reuse *)
        internalAdapter.deleteVerificationValue (Verification.id verificationValue) ;;
        session <- internalAdapter.findSession (Verification.value verificationValue) ;;
        match session with
        | None => throw (c_error "BAD_REQUEST" "Session not found")
        | Some session =>
            if createSession opts then
              (* Create a new session *)
              newSession <-
                internalAdapter.createSession
                  (Session.userId (SessionPair.session session)) (drawn_token c) ;;
              (* Set session cookie *)
              setSessionCookie (SessionPair.Make newSession (SessionPair.user session)) ;;
              ret (VerifyResponse.Make newSession (SessionPair.user session)
                     (Some (Session.token newSession)))
            else
              ret (VerifyResponse.Make (SessionPair.session session)
                     (SessionPair.user session) None)
        end
  end.

(** The endpoint: the body is checked against the schema, then handled. *)
Definition verifyOneTimeTokenSession (opts : Opts) (c : VerifyCtx)
  : M VerifyResponse.t :=
  if tokenSchema (body_token c) then verifyHandler opts c
  else throw (ValidationError "Token is required").

(* ===================================================================== *)
(** ** Redemption, one awaited call at a time *)
(* ===================================================================== *)

(** A [verify] call in flight is suspended at one of its [await]s.  Each
    state names the adapter call that is pending; when the call takes effect
    the handler runs on to its next [await], or settles. *)
Inductive InFlight : Type :=
| AwaitLookup
| AwaitCleanup (verificationValue : Verification.t)
| AwaitInvalidate (verificationValue : Verification.t)
| AwaitFindSession (verificationValue : Verification.t)
| AwaitCreateSession (session : SessionPair.t)
| AwaitSetCookie (session : SessionPair.t) (newSession : Session.t)
| Settled (r : APIError + VerifyResponse.t).

Definition perform {A : Type} (m : M A) (k : A -> InFlight) (w : World) : InFlight * World :=
  match m w with
  | (inl e, w') => (Settled (inl e), w')
  | (inr a, w') => (k a, w')
  end.

Definition begin (c : VerifyCtx) : InFlight :=
  if tokenSchema (body_token c) then AwaitLookup
  else Settled (inl (ValidationError "Token is required")).

Definition resume (opts : Opts) (c : VerifyCtx) (t : InFlight) : World -> InFlight * World :=
  match t with
  | AwaitLookup =>
      perform
        (internalAdapter.findVerificationValue
           ("one-time-token:" ++ storeToken opts (body_token c)))
        (fun verificationValue =>
           match verificationValue with
           | None => Settled (inl (c_error "BAD_REQUEST" "Invalid token"))
           | Some v =>
               if (Verification.expiresAt v <? verify_now c)%Z
               then AwaitCleanup v else AwaitInvalidate v
           end)
  | AwaitCleanup v =>
      perform (internalAdapter.deleteVerificationValue (Verification.id v))
        (fun _ => Settled (inl (c_error "BAD_REQUEST" "Token expired")))
  | AwaitInvalidate v =>
      perform (internalAdapter.deleteVerificationValue (Verification.id v))
        (fun _ => AwaitFindSession v)
  | AwaitFindSession v =>
      perform (internalAdapter.findSession (Verification.value v))
        (fun session =>
           match session with
           | None => Settled (inl (c_error "BAD_REQUEST" "Session not found"))
           | Some session =>
               if createSession opts then AwaitCreateSession session
               else Settled (inr (VerifyResponse.Make (SessionPair.session session)
                                    (SessionPair.user session) None))
           end)
  | AwaitCreateSession session =>
      perform
        (internalAdapter.createSession
           (Session.userId (SessionPair.session session)) (drawn_token c))
        (fun newSession => AwaitSetCookie session newSession)
  | AwaitSetCookie session newSession =>
      perform (setSessionCookie (SessionPair.Make newSession (SessionPair.user session)))
        (fun _ => Settled (inr (VerifyResponse.Make newSession (SessionPair.user session)
                                  (Some (Session.token newSession)))))
  | Settled r => fun w => (Settled r, w)
  end.

Fixpoint drain (n : nat) (opts : Opts) (c : VerifyCtx) (t : InFlight) (w : World)
  : InFlight * World :=
  match n with
  | O => (t, w)
  | S n' => let (t', w') := resume opts c t w in drain n' opts c t' w'
  end.

(** Two [verify] calls in flight over one store.  The schedule says whose
    pending call takes effect next ([true]: the first call's); when it is
    exhausted both calls run to their end. *)
Record Race := { firstCall : InFlight; secondCall : InFlight; shared : World }.

Definition turn (opts : Opts) (c1 c2 : VerifyCtx) (r : Race) (who : bool) : Race :=
  if who then
    let (t, w) := resume opts c1 (firstCall r) (shared r) in
    {| firstCall := t; secondCall := secondCall r; shared := w |}
  else
    let (t, w) := resume opts c2 (secondCall r) (shared r) in
    {| firstCall := firstCall r; secondCall := t; shared := w |}.

Definition race (opts : Opts) (c1 c2 : VerifyCtx) (schedule : list bool) (w : World)
  : Race :=
  let r := fold_left (turn opts c1 c2) schedule
             {| firstCall := begin c1; secondCall := begin c2; shared := w |} in
  let (t1, w1) := drain 5 opts c1 (firstCall r) (shared r) in
  let (t2, w2) := drain 5 opts c2 (secondCall r) w1 in
  {| firstCall := t1; secondCall := t2; shared := w2 |}.

(* ===================================================================== *)
(** ** Traffic: calls served one after the other *)
(* ===================================================================== *)

Inductive Call : Type :=
| Generate (c : GenerateCtx)
| Verify (c : VerifyCtx).

Definition serve (opts : Opts) (w : World) (call : Call) : World :=
  match call with
  | Generate c => snd (generateOneTimeTokenSession opts c w)
  | Verify c => snd (verifyOneTimeTokenSession opts c w)
  end.

Definition serveAll (opts : Opts) (calls : list Call) (w : World) : World :=
  fold_left (serve opts) calls w.

(** The logical token a [generate] call produces. *)
Definition logicalToken (opts : Opts) (c : GenerateCtx) : string :=
  match generateToken opts with
  | Some generate => generate (context_session c) c
  | None => random32 c
  end.

(** The identifier a call writes to the verification table, if any. *)
Definition issues (opts : Opts) (call : Call) : option string :=
  match call with
  | Generate c =>
      if disableClientRequest opts && request c then None
      else Some (identifierOf opts (logicalToken opts c))
  | Verify _ => None
  end.

(* ===================================================================== *)
(** ** Vocabulary of the statements *)
(* ===================================================================== *)

Definition InvalidToken : APIError := ApiError "BAD_REQUEST" "Invalid token".
Definition TokenExpired : APIError := ApiError "BAD_REQUEST" "Token expired".
Definition SessionNotFound : APIError := ApiError "BAD_REQUEST" "Session not found".
Definition ClientRequestsDisabled : APIError :=
  ApiError "BAD_REQUEST" "Client requests are disabled".
Definition InvalidInput : APIError := ValidationError "Token is required".

Definition under (k : string) (v : Verification.t) : bool :=
  String.eqb (Verification.identifier v) k.

(** The records that survive [deleteVerificationValue id]. *)
Definition otherThan (id : nat) (v : Verification.t) : bool :=
  negb (Nat.eqb (Verification.id v) id).

(** No record is stored under [k]. *)
Definition absent (k : string) (w : World) : Prop :=
  filter (under k) (verifications w) = [].

(** At most one record is stored under [k] (the invariant of spec 3). *)
Definition atMostOne (k : string) (w : World) : Prop :=
  (List.length (filter (under k) (verifications w)) <= 1)%nat.

(** The store hands out each identity once. *)
Definition identitiesFresh (w : World) : Prop :=
  NoDup (map Verification.id (verifications w)) /\
  forall v, In v (verifications w) -> (Verification.id v < nextId w)%nat.

Definition succeeded {A : Type} (r : APIError + A) : bool :=
  match r with inr _ => true | inl _ => false end.

(** The call got as far as the single-use deletion (step 4 of spec 4.3): it
    succeeded, or it failed only at the session lookup that follows. *)
Definition reachedInvalidation (r : APIError + VerifyResponse.t) : Prop :=
  succeeded r = true \/ r = inl SessionNotFound.

Definition isWhitespace (ch : ascii) : bool :=
  match nat_of_ascii ch with
  | 9%nat | 10%nat | 11%nat | 12%nat | 13%nat | 32%nat => true
  | _ => false
  end.

(** Empty, or made of white space only. *)
Fixpoint blank (s : string) : bool :=
  match s with
  | EmptyString => true
  | String ch rest => isWhitespace ch && blank rest
  end.

(** Two worlds that differ at most in their journals. *)
Definition sameStore (w w' : World) : Prop :=
  verifications w = verifications w' /\ sessions w = sessions w'
  /\ users w = users w' /\ nextId w = nextId w' /\ cookies w = cookies w'.

(** [opts] with [disableClientRequest] switched off. *)
Definition allowClientRequest (opts : Opts) : Opts :=
  {| expiresIn := expiresIn opts; disableClientRequest := false;
     generateToken := generateToken opts; storeTokenOption := storeTokenOption opts;
     createSession := createSession opts |}.

(** ** A small world to run the endpoints in *)

Module Demo.

Definition alice : User.t := User.Make "u1" "alice@example.com".
Definition signedIn : Session.t := Session.Make 0 "u1" "durable-1".
Definition current : SessionPair.t := SessionPair.Make signedIn alice.

Definition world0 : World :=
  {| verifications := []; sessions := [signedIn]; users := [alice];
     nextId := 1; cookies := []; journal := [] |}.

Definition fromServer (now : Z) : GenerateCtx :=
  {| request := false; context_session := current; generate_now := now;
     random32 := "k3J9xQ2mV7pL0aZ8bN4cR6tY1uW5eH3s" |}.

Definition fromClient (now : Z) : GenerateCtx :=
  {| request := true; context_session := current; generate_now := now;
     random32 := "k3J9xQ2mV7pL0aZ8bN4cR6tY1uW5eH3s" |}.

Definition redeem (token : string) (now : Z) : VerifyCtx :=
  {| body_token := token; verify_now := now; drawn_token := "durable-2" |}.

Definition defaults : Opts := oneTimeTokenSession None.

(** Options whose generator returns the empty token. *)
Definition emptyTokenOptions : OneTimeTokenSessionOptions :=
  {| opt_expiresIn := None; opt_disableClientRequest := None;
     opt_generateToken := Some (fun _ _ => ""); opt_storeToken := None;
     opt_createSession := None |}.

Definition serverOnly : Opts :=
  oneTimeTokenSession
    (Some {| opt_expiresIn := None; opt_disableClientRequest := Some true;
             opt_generateToken := None; opt_storeToken := None;
             opt_createSession := None |}).

(** The server has issued one token at time 1000, under the defaults. *)
Definition issuedAt1000 : World :=
  snd (generateOneTimeTokenSession defaults (fromServer 1000) world0).

(** The same world after the issuing session was revoked. *)
Definition signedOut : World :=
  {| verifications := verifications issuedAt1000; sessions := []; users := [alice];
     nextId := nextId issuedAt1000; cookies := []; journal := journal issuedAt1000 |}.

Definition fixedToken (token : string) (store : StoreToken) (create : bool) : Opts :=
  oneTimeTokenSession
    (Some {| opt_expiresIn := None; opt_disableClientRequest := None;
             opt_generateToken := Some (fun _ _ => token);
             opt_storeToken := Some store; opt_createSession := Some create |}).

End Demo.

(** [verify] of [c] once [calls] have been served. *)
Definition thenVerify (opts : Opts) (calls : list Call) (c : VerifyCtx) (w : World)
  : (APIError + VerifyResponse.t) * World :=
  verifyOneTimeTokenSession opts c (serveAll opts calls w).

(* ===================================================================== *)
(** ** The endpoints under [/one-time-token] *)
(* ===================================================================== *)

(** The other version of the plugin in the repository: endpoints
    [generateOneTimeToken] and [verifyOneTimeToken], the ones the test suite
    calls.  Its options keep [expiresIn] as given and fall back to 3 where
    it is used; its body schema is [z.string()], without a minimum length. *)
Module OneTimeToken.

Record Opts := {
  expiresIn : option Z;
  disableClientRequest : option bool;
  generateToken : option (SessionPair.t -> GenerateCtx -> string);
  storeTokenOption : StoreToken;
  createSession : bool
}.

Definition oneTimeTokenSession (options : option OneTimeTokenSessionOptions) : Opts :=
  match options with
  | None =>
      {| expiresIn := None; disableClientRequest := None; generateToken := None;
         storeTokenOption := plain; createSession := true |}
  | Some o =>
      {| expiresIn := opt_expiresIn o;
         disableClientRequest := opt_disableClientRequest o;
         generateToken := opt_generateToken o;
         storeTokenOption := orElse (opt_storeToken o) plain;
         createSession := orElse (opt_createSession o) true |}
  end.

Definition storeToken (opts : Opts) (token : string) : string :=
  match storeTokenOption opts with
  | hashed => defaultKeyHasher token
  | custom_hasher hash => hash token
  | plain => token
  end.

(** Without a [generateToken] the source calls [generateRandomString(32)],
    which this version imports from node's "crypto"; [random32 c] stands for
    what that call returns if it returns.  No statement of this file runs
    that branch. *)
Definition generateOneTimeToken (opts : Opts) (c : GenerateCtx) : M GenerateResponse.t :=
  (* if request exist, it means it's a client request *)
  if orElse (disableClientRequest opts) false && request c then
    throw (c_error "BAD_REQUEST" "Client requests are disabled")
  else
    let session := context_session c in
    let token :=
      match generateToken opts with
      | Some generate => generate session c
      | None => random32 c
      end in
    let expiresAt := generate_now c + orElse (expiresIn opts) 3 * 60 * 1000 in
    let storedToken := storeToken opts token in
    _ <- internalAdapter.createVerificationValue
           (Session.token (SessionPair.session session))
           ("one-time-token:" ++ storedToken)
           expiresAt ;;
    ret (GenerateResponse.Make token).

Definition verifyOneTimeToken (opts : Opts) (c : VerifyCtx) : M VerifyResponse.t :=
  let token := body_token c in
  let storedToken := storeToken opts token in
  verificationValue <-
    internalAdapter.findVerificationValue ("one-time-token:" ++ storedToken) ;;
  match verificationValue with
  | None => throw (c_error "BAD_REQUEST" "Invalid token")
  | Some verificationValue =>
      if (Verification.expiresAt verificationValue <? verify_now c)%Z then
        internalAdapter.deleteVerificationValue (Verification.id verificationValue) ;;
        throw (c_error "BAD_REQUEST" "Token expired")
      else
        (* Delete the verification value first to prevent reuse *)
        internalAdapter.deleteVerificationValue (Verification.id verificationValue) ;;
        session <- internalAdapter.findSession (Verification.value verificationValue) ;;
        match session with
        | None => throw (c_error "BAD_REQUEST" "Session not found")
        | Some session =>
            if createSession opts then
              newSession <-
                internalAdapter.createSession
                  (Session.userId (SessionPair.session session)) (drawn_token c) ;;
              setSessionCookie (SessionPair.Make newSession (SessionPair.user session)) ;;
              ret (VerifyResponse.Make newSession (SessionPair.user session)
                     (Some (Session.token newSession)))
            else
              ret (VerifyResponse.Make (SessionPair.session session)
                     (SessionPair.user session) None)
        end
  end.

End OneTimeToken.

(* ===================================================================== *)
(** ** More vocabulary *)
(* ===================================================================== *)

(** A byte of a [Buffer]. *)
Definition isByte (b : Z) : Prop := 0 <= b < 256.

(** A character of the base64url alphabet. *)
Definition urlSafe (ch : ascii) : bool :=
  existsb (Ascii.eqb ch) (list_ascii_of_string Base64Url.alphabet).

(** [l] is [l'] with some entries put in front. *)
Definition extends {A : Type} (l' l : list A) : Prop := exists front, l' = (front ++ l)%list.

(** The adapter calls of one [verify] call, for the record [v] its lookup
    returned and the key [k] it looked up. *)
Definition lookupOnly (k : string) : list Op := [FindVerificationValue k].

Definition cleanupCalls (k : string) (v : Verification.t) : list Op :=
  [FindVerificationValue k; DeleteVerificationValue (Verification.id v)].

Definition resolveCalls (k : string) (v : Verification.t) : list Op :=
  [FindVerificationValue k; DeleteVerificationValue (Verification.id v);
   FindSession (Verification.value v)].

Definition issueCalls (k : string) (v : Verification.t) (userId sessionToken : string)
  : list Op :=
  [FindVerificationValue k; DeleteVerificationValue (Verification.id v);
   FindSession (Verification.value v); CreateSession userId;
   SetSessionCookie sessionToken].

(** A call in flight is on its way to leaving nothing under [k]: it has not
    looked up yet, or the deletion it is waiting for clears the key, or the
    key is clear already. *)
Definition settlesKey (k : string) (t : InFlight) (w : World) : Prop :=
  match t with
  | AwaitLookup => True
  | AwaitCleanup v | AwaitInvalidate v =>
      filter (under k) (filter (otherThan (Verification.id v)) (verifications w)) = []
  | _ => absent k w
  end.

(** Does the call redeem a token stored under [k], in world [w]? *)
Definition redeems (opts : Opts) (k : string) (w : World) (call : Call) : bool :=
  match call with
  | Generate _ => false
  | Verify c =>
      String.eqb (identifierOf opts (body_token c)) k
      && succeeded (fst (verifyOneTimeTokenSession opts c w))
  end.

(** How many of the calls, served one after the other from [w], redeem a
    token stored under [k]. *)
Fixpoint redemptions (opts : Opts) (k : string) (calls : list Call) (w : World) : nat :=
  match calls with
  | [] => 0%nat
  | call :: rest =>
      ((if redeems opts k w call then 1 else 0)
       + redemptions opts k rest (serve opts w call))%nat
  end.

(** How many of the calls store a record under [k]. *)
Definition issuances (opts : Opts) (k : string) (calls : list Call) : nat :=
  List.length
    (filter (fun call =>
               match issues opts call with
               | Some k' => String.eqb k' k
               | None => false
               end) calls).

(** The records stored under [k]. *)
Definition stored (k : string) (w : World) : nat :=
  List.length (filter (under k) (verifications w)).

(* ===================================================================== *)
(** ** index.ts: the options object as the spread sees it *)
(* ===================================================================== *)

(** A property of the [options] object: missing, present with the value
    [undefined] (the types allow [number | undefined] and the like), or
    present with a value. *)
Inductive Property (A : Type) : Type :=
| Missing
| IsUndefined
| Has (a : A).
Arguments Missing {A}.
Arguments IsUndefined {A}.
Arguments Has {A} a.

Record OptionsObject := {
  has_expiresIn : Property Z;
  has_disableClientRequest : Property bool;
  has_generateToken : Property (SessionPair.t -> GenerateCtx -> string);
  has_storeToken : Property StoreToken;
  has_createSession : Property bool
}.

(** [{ key: default, ...options }.key]: a property of [options] that is
    present overrides the default, also when its value is [undefined]
    ([None]). *)
Definition spread {A : Type} (default : option A) (p : Property A) : option A :=
  match p with
  | Missing => default
  | IsUndefined => None
  | Has a => Some a
  end.

(** The object [opts]; [None] is [undefined]. *)
Record Merged := {
  its_expiresIn : option Z;
  its_disableClientRequest : option bool;
  its_generateToken : option (SessionPair.t -> GenerateCtx -> string);
  its_storeToken : option StoreToken;
  its_createSession : option bool
}.

(** [{ storeToken: "plain", createSession: true, expiresIn: 3, ...options }]. *)
Definition mergeOptions (options : option OptionsObject) : Merged :=
  match options with
  | None =>
      {| its_expiresIn := Some 3; its_disableClientRequest := None;
         its_generateToken := None; its_storeToken := Some plain;
         its_createSession := Some true |}
  | Some o =>
      {| its_expiresIn := spread (Some 3) (has_expiresIn o);
         its_disableClientRequest := spread None (has_disableClientRequest o);
         its_generateToken := spread None (has_generateToken o);
         its_storeToken := spread (Some plain) (has_storeToken o);
         its_createSession := spread (Some true) (has_createSession o) |}
  end.

(** The sibling's [{ storeToken: "plain", createSession: true, ...options }]. *)
Definition mergeOptionsWithoutLifetime (options : option OptionsObject) : Merged :=
  match options with
  | None =>
      {| its_expiresIn := None; its_disableClientRequest := None;
         its_generateToken := None; its_storeToken := Some plain;
         its_createSession := Some true |}
  | Some o =>
      {| its_expiresIn := spread None (has_expiresIn o);
         its_disableClientRequest := spread None (has_disableClientRequest o);
         its_generateToken := spread None (has_generateToken o);
         its_storeToken := spread (Some plain) (has_storeToken o);
         its_createSession := spread (Some true) (has_createSession o) |}
  end.

(** A [Date]: a time value, or the Invalid Date a [NaN] makes. *)
Inductive JsDate : Type :=
| TimeValue (ms : Z)
| InvalidDate.

(** [new Date(Date.now() + opts.expiresIn * 60 * 1000)]: with
    [opts.expiresIn] undefined the product is [NaN]. *)
Definition expiresAtOf (now : Z) (expiresIn : option Z) : JsDate :=
  match expiresIn with
  | Some minutes => TimeValue (now + minutes * 60 * 1000)
  | None => InvalidDate
  end.

(** The sibling's [new Date(Date.now() + (opts?.expiresIn ?? 3) * 60 * 1000)]. *)
Definition expiresAtOrDefault (now : Z) (expiresIn : option Z) : JsDate :=
  TimeValue (now + orElse expiresIn 3 * 60 * 1000).

(** [verificationValue.expiresAt < new Date()]: no comparison with an
    Invalid Date holds. *)
Definition isBefore (d : JsDate) (now : Z) : bool :=
  match d with
  | TimeValue ms => (ms <? now)%Z
  | InvalidDate => false
  end.

(** [opts] as the handlers use it, when its lifetime is a number: an
    undefined [disableClientRequest], [generateToken] or [createSession] is
    falsy, and an undefined [storeToken] matches neither branch of
    [storeToken], which then returns the token. *)
Definition toOpts (m : Merged) : option Opts :=
  match its_expiresIn m with
  | None => None
  | Some minutes =>
      Some {| expiresIn := minutes;
              disableClientRequest := orElse (its_disableClientRequest m) false;
              generateToken := its_generateToken m;
              storeTokenOption := orElse (its_storeToken m) plain;
              createSession := orElse (its_createSession m) false |}
  end.

(** An options object none of whose properties is present and undefined. *)
Definition present {A : Type} (o : option A) : Property A :=
  match o with
  | Some a => Has a
  | None => Missing
  end.

Definition asObject (o : OneTimeTokenSessionOptions) : OptionsObject :=
  {| has_expiresIn := present (opt_expiresIn o);
     has_disableClientRequest := present (opt_disableClientRequest o);
     has_generateToken := present (opt_generateToken o);
     has_storeToken := present (opt_storeToken o);
     has_createSession := present (opt_createSession o) |}.

(** [{ expiresIn: undefined }]. *)
Definition lifetimeUndefined : OptionsObject :=
  {| has_expiresIn := IsUndefined; has_disableClientRequest := Missing;
     has_generateToken := Missing; has_storeToken := Missing;
     has_createSession := Missing |}.

(* ===================================================================== *)
(** ** The endpoints over any store *)
(* ===================================================================== *)

(** The handlers again, with nothing fixed about the collaborators: the
    store is any state with any six adapter operations, each of which may
    change the state as it likes (sweep expired records on a lookup, say)
    and may throw; [generateToken] and the custom [hash] are promises that
    may reject.  What they throw is passed on to the caller. *)
Module AnyStore.

(** What a call ends with besides a value: an error the plugin raised, or
    what a callback or the store threw. *)
Inductive Thrown (X : Type) : Type :=
| Own (e : APIError)
| Foreign (x : X).
Arguments Own {X} e.
Arguments Foreign {X} x.

Definition Eff (S X A : Type) : Type := S -> (Thrown X + A) * S.

Definition pure {S X A : Type} (a : A) : Eff S X A := fun s => (inr a, s).

Definition raise {S X A : Type} (e : Thrown X) : Eff S X A := fun s => (inl e, s).

Definition andThen {S X A B : Type} (m : Eff S X A) (k : A -> Eff S X B) : Eff S X B :=
  fun s =>
    match m s with
    | (inl e, s') => (inl e, s')
    | (inr a, s') => k a s'
    end.

Record Adapter (S X : Type) := {
  createVerificationValue : string -> string -> Z -> Eff S X Verification.t;
  findVerificationValue : string -> Eff S X (option Verification.t);
  deleteVerificationValue : nat -> Eff S X unit;
  findSession : string -> Eff S X (option SessionPair.t);
  createSession : string -> Eff S X Session.t;
  setSessionCookie : SessionPair.t -> Eff S X unit
}.
Arguments createVerificationValue {S X} a value identifier expiresAt : rename.
Arguments findVerificationValue {S X} a identifier : rename.
Arguments deleteVerificationValue {S X} a id : rename.
Arguments findSession {S X} a token : rename.
Arguments createSession {S X} a userId : rename.
Arguments setSessionCookie {S X} a pair : rename.

Inductive Transform (S X : Type) : Type :=
| Plain
| Hashed
| CustomHasher (hash : string -> Eff S X string).
Arguments Plain {S X}.
Arguments Hashed {S X}.
Arguments CustomHasher {S X} hash.

Record Opts (S X : Type) := {
  expiresIn : Z;
  disableClientRequest : bool;
  generateToken : option (SessionPair.t -> Eff S X string);
  storeTokenOption : Transform S X;
  createSessionOption : bool
}.
Arguments expiresIn {S X} o.
Arguments disableClientRequest {S X} o.
Arguments generateToken {S X} o.
Arguments storeTokenOption {S X} o.
Arguments createSessionOption {S X} o.

Definition storeToken {S X : Type} (opts : Opts S X) (token : string) : Eff S X string :=
  match storeTokenOption opts with
  | Hashed => pure (defaultKeyHasher token)
  | CustomHasher hash => hash token
  | Plain => pure token
  end.

(** [opts.generateToken ? await opts.generateToken(session, c)
     : generateRandomString(32)]. *)
Definition produceToken {S X : Type} (opts : Opts S X) (session : SessionPair.t)
    (random32 : string) : Eff S X string :=
  match generateToken opts with
  | Some generate => generate session
  | None => pure random32
  end.

Definition generateOneTimeTokenSession {S X : Type} (a : Adapter S X) (opts : Opts S X)
    (request : bool) (session : SessionPair.t) (now : Z) (random32 : string)
  : Eff S X GenerateResponse.t :=
  if disableClientRequest opts && request then
    raise (Own (c_error "BAD_REQUEST" "Client requests are disabled"))
  else
    andThen (produceToken opts session random32) (fun token =>
    let expiresAt := now + expiresIn opts * 60 * 1000 in
    andThen (storeToken opts token) (fun storedToken =>
    andThen (createVerificationValue a
               (Session.token (SessionPair.session session))
               ("one-time-token:" ++ storedToken)
               expiresAt) (fun _ =>
    pure (GenerateResponse.Make token)))).

Definition verifyOneTimeTokenSession {S X : Type} (a : Adapter S X) (opts : Opts S X)
    (token : string) (now : Z) : Eff S X VerifyResponse.t :=
  if tokenSchema token then
    andThen (storeToken opts token) (fun storedToken =>
    andThen (findVerificationValue a ("one-time-token:" ++ storedToken))
      (fun verificationValue =>
    match verificationValue with
    | None => raise (Own (c_error "BAD_REQUEST" "Invalid token"))
    | Some verificationValue =>
        if (Verification.expiresAt verificationValue <? now)%Z then
          andThen (deleteVerificationValue a (Verification.id verificationValue))
            (fun _ => raise (Own (c_error "BAD_REQUEST" "Token expired")))
        else
          andThen (deleteVerificationValue a (Verification.id verificationValue))
            (fun _ =>
          andThen (findSession a (Verification.value verificationValue))
            (fun session =>
          match session with
          | None => raise (Own (c_error "BAD_REQUEST" "Session not found"))
          | Some session =>
              if createSessionOption opts then
                andThen (createSession a (Session.userId (SessionPair.session session)))
                  (fun newSession =>
                andThen (setSessionCookie a
                           (SessionPair.Make newSession (SessionPair.user session)))
                  (fun _ =>
                pure (VerifyResponse.Make newSession (SessionPair.user session)
                        (Some (Session.token newSession)))))
              else
                pure (VerifyResponse.Make (SessionPair.session session)
                        (SessionPair.user session) None)
          end))
    end))
  else raise (Own (ValidationError "Token is required")).

(** [e] is what the custom hasher or one of the adapter calls a [verify]
    makes threw, somewhere. *)
Definition thrownInVerify {S X : Type} (a : Adapter S X) (opts : Opts S X)
    (e : Thrown X) : Prop :=
  (exists token s s', storeToken opts token s = (inl e, s'))
  \/ (exists identifier s s', findVerificationValue a identifier s = (inl e, s'))
  \/ (exists id s s', deleteVerificationValue a id s = (inl e, s'))
  \/ (exists token s s', findSession a token s = (inl e, s'))
  \/ (exists userId s s', createSession a userId s = (inl e, s'))
  \/ (exists pair s s', setSessionCookie a pair s = (inl e, s')).

(** The same for what a [generate] runs. *)
Definition thrownInGenerate {S X : Type} (a : Adapter S X) (opts : Opts S X)
    (session : SessionPair.t) (random32 : string) (e : Thrown X) : Prop :=
  (exists s s', produceToken opts session random32 s = (inl e, s'))
  \/ (exists token s s', storeToken opts token s = (inl e, s'))
  \/ (exists value identifier expiresAt s s',
        createVerificationValue a value identifier expiresAt s = (inl e, s')).

End AnyStore.

(** The store of this file as one such store: nothing foreign is thrown. *)
Definition asEff {A : Type} (m : M A) : AnyStore.Eff World Empty_set A :=
  fun w =>
    match m w with
    | (inl e, w') => (inl (AnyStore.Own e), w')
    | (inr a, w') => (inr a, w')
    end.

Definition modelStore (drawn : string) : AnyStore.Adapter World Empty_set :=
  {| AnyStore.createVerificationValue :=
       fun value identifier expiresAt =>
         asEff (internalAdapter.createVerificationValue value identifier expiresAt);
     AnyStore.findVerificationValue :=
       fun identifier => asEff (internalAdapter.findVerificationValue identifier);
     AnyStore.deleteVerificationValue :=
       fun id => asEff (internalAdapter.deleteVerificationValue id);
     AnyStore.findSession := fun token => asEff (internalAdapter.findSession token);
     AnyStore.createSession := fun userId => asEff (internalAdapter.createSession userId drawn);
     AnyStore.setSessionCookie := fun pair => asEff (setSessionCookie pair) |}.

Definition modelTransform (t : StoreToken) : AnyStore.Transform World Empty_set :=
  match t with
  | plain => AnyStore.Plain
  | hashed => AnyStore.Hashed
  | custom_hasher hash => AnyStore.CustomHasher (fun token => AnyStore.pure (hash token))
  end.

Definition modelOpts (opts : Opts) (c : GenerateCtx) : AnyStore.Opts World Empty_set :=
  {| AnyStore.expiresIn := expiresIn opts;
     AnyStore.disableClientRequest := disableClientRequest opts;
     AnyStore.generateToken :=
       match generateToken opts with
       | Some generate => Some (fun session => AnyStore.pure (generate session c))
       | None => None
       end;
     AnyStore.storeTokenOption := modelTransform (storeTokenOption opts);
     AnyStore.createSessionOption := createSession opts |}.

(** ** Proof steps *)

(** Unfold one endpoint down to the fields of the world. *)
Ltac step_handler :=
  unfold verifyOneTimeTokenSession, verifyHandler, generateOneTimeTokenSession,
    bind, throw, ret, c_error,
    internalAdapter.findVerificationValue, internalAdapter.deleteVerificationValue,
    internalAdapter.findSession, internalAdapter.createSession,
    internalAdapter.createVerificationValue, setSessionCookie,
    internalAdapter.record; cbn [fst snd verifications sessions users nextId cookies journal].

(** The same for a suspended redemption. *)
Ltac step_call :=
  cbn [drain resume perform begin fst snd];
  unfold perform, internalAdapter.findVerificationValue,
    internalAdapter.deleteVerificationValue, internalAdapter.findSession,
    internalAdapter.createSession, setSessionCookie, internalAdapter.record, c_error;
  cbn [fst snd verifications sessions users nextId cookies journal].

Ltac crunch :=
  repeat (progress (cbn; try unfold internalAdapter.lookupSession;
                    try unfold internalAdapter.record)).

(* ===================================================================== *)
(** * Properties *)
(* ===================================================================== *)

(** ** The hasher on known inputs *)

Example sha256_of_empty :
  hex_of_bytes (Sha256.digest (bytes_of_string ""))
  = "e3b0c44298fc1c149afbf4c8996fb92427ae41e4649b934ca495991b7852b855".
Proof. vm_compute. reflexivity. Qed.

Example sha256_of_abc :
  hex_of_bytes (Sha256.digest (bytes_of_string "abc"))
  = "ba7816bf8f01cfea414140de5dae2223b00361a396177a9cb410ff61f20015ad".
Proof. vm_compute. reflexivity. Qed.

(** Fifty-six bytes: the padding spills into a second block. *)
Example sha256_two_blocks :
  hex_of_bytes
    (Sha256.digest
       (bytes_of_string "aaaaaaaaaaaaaaaaaaaaaaaaaaaaaaaaaaaaaaaaaaaaaaaaaaaaaaaa"))
  = "b35439a4ac6f0948b6d6f9e3c6af0f5f590ce20f1bde7090ef7970686ec6738a".
Proof. vm_compute. reflexivity. Qed.

Example base64url_tail_of_one : Base64Url.encode (bytes_of_string "f") = "Zg".
Proof. reflexivity. Qed.

Example base64url_tail_of_two : Base64Url.encode (bytes_of_string "fo") = "Zm8".
Proof. reflexivity. Qed.

Example base64url_url_safe : Base64Url.encode [251; 255] = "-_8".
Proof. reflexivity. Qed.

(** The token of the test suite. *)
Example defaultKeyHasher_123456 :
  defaultKeyHasher "123456" = "jZae727K08KaOmKSgOaGzww_XVqGr_PKEgIMkjrcbJI".
Proof. vm_compute. reflexivity. Qed.

(** ** Lists of records *)

Lemma find_as_filter {A : Type} (p : A -> bool) (l : list A) :
  find p l = hd_error (filter p l).
Proof.
  induction l as [|a l IH]; simpl; [reflexivity|].
  destruct (p a); [reflexivity | exact IH].
Qed.

Lemma filter_swap {A : Type} (p q : A -> bool) (l : list A) :
  filter p (filter q l) = filter q (filter p l).
Proof.
  induction l as [|a l IH]; simpl; [reflexivity|].
  destruct (p a) eqn:Hp, (q a) eqn:Hq; simpl; rewrite ?Hp, ?Hq, IH; reflexivity.
Qed.

Lemma filter_shrinks {A : Type} (p : A -> bool) (l : list A) :
  (List.length (filter p l) <= List.length l)%nat.
Proof.
  induction l as [|a l IH]; simpl; [lia|].
  destruct (p a); simpl; lia.
Qed.

Lemma otherThan_self v : otherThan (Verification.id v) v = false.
Proof. unfold otherThan. rewrite Nat.eqb_refl. reflexivity. Qed.

(** Deleting the record a lookup returned leaves nothing under the key when
    the key held at most one record. *)
Lemma delete_found_clears k v l :
  (List.length (filter (under k) l) <= 1)%nat ->
  find (under k) l = Some v ->
  filter (under k) (filter (otherThan (Verification.id v)) l) = [].
Proof.
  intros Hone Hfind.
  rewrite filter_swap.
  rewrite find_as_filter in Hfind.
  destruct (filter (under k) l) as [|x [|y rest]]; simpl in *; try discriminate; try lia.
  injection Hfind as ->. rewrite otherThan_self. reflexivity.
Qed.

Lemma delete_keeps_absent k id l :
  filter (under k) l = [] -> filter (under k) (filter (otherThan id) l) = [].
Proof. intros H. rewrite filter_swap, H. reflexivity. Qed.

Lemma delete_keeps_atMostOne k id l :
  (List.length (filter (under k) l) <= 1)%nat ->
  (List.length (filter (under k) (filter (otherThan id) l)) <= 1)%nat.
Proof.
  intros H. rewrite filter_swap.
  pose proof (filter_shrinks (otherThan id) (filter (under k) l)). lia.
Qed.

Lemma prefix_cancel (a b : string) :
  "one-time-token:" ++ a = "one-time-token:" ++ b -> a = b.
Proof. simpl. intros H. injection H as H. exact H. Qed.

(** ** What one [verify] call does to the verification table *)

(** The table after a call: untouched when the body is rejected or nothing
    is found, otherwise the table without the record the lookup returned. *)
Lemma verify_table opts c w :
  verifications (snd (verifyOneTimeTokenSession opts c w)) =
  if tokenSchema (body_token c) then
    match find (under (identifierOf opts (body_token c))) (verifications w) with
    | None => verifications w
    | Some v => filter (otherThan (Verification.id v)) (verifications w)
    end
  else verifications w.
Proof.
  step_handler.
  destruct (tokenSchema (body_token c)); [|reflexivity].
  fold (under ("one-time-token:" ++ storeToken opts (body_token c))).
  fold (identifierOf opts (body_token c)).
  destruct (find (under (identifierOf opts (body_token c))) (verifications w))
    as [v|]; [|reflexivity].
  destruct (Verification.expiresAt v <? verify_now c)%Z; [reflexivity|].
  cbn.
  destruct (internalAdapter.lookupSession _ _); [|reflexivity].
  destruct (createSession opts); reflexivity.
Qed.

Lemma verify_keeps_absent opts c k w :
  absent k w -> absent k (snd (verifyOneTimeTokenSession opts c w)).
Proof.
  unfold absent. intros H. rewrite verify_table.
  destruct (tokenSchema _); [|exact H].
  destruct (find _ _); [apply delete_keeps_absent|]; exact H.
Qed.

Lemma verify_keeps_atMostOne opts c k w :
  atMostOne k w -> atMostOne k (snd (verifyOneTimeTokenSession opts c w)).
Proof.
  unfold atMostOne. intros H. rewrite verify_table.
  destruct (tokenSchema _); [|exact H].
  destruct (find _ _); [apply delete_keeps_atMostOne|]; exact H.
Qed.

(** A call that passes the schema leaves nothing under its own key, if the
    key held at most one record. *)
Lemma verify_clears_own_key opts c w :
  tokenSchema (body_token c) = true ->
  atMostOne (identifierOf opts (body_token c)) w ->
  absent (identifierOf opts (body_token c)) (snd (verifyOneTimeTokenSession opts c w)).
Proof.
  intros Hs Hone. unfold absent. rewrite verify_table, Hs.
  destruct (find _ _) as [v|] eqn:Hf.
  - apply delete_found_clears; assumption.
  - rewrite find_as_filter in Hf.
    destruct (filter _ (verifications w)); [reflexivity | discriminate].
Qed.

(** With nothing under its key, a call that passes the schema is refused as
    an invalid token. *)
Lemma verify_absent_invalid opts c w :
  tokenSchema (body_token c) = true ->
  absent (identifierOf opts (body_token c)) w ->
  fst (verifyOneTimeTokenSession opts c w) = inl InvalidToken.
Proof.
  intros Hs Habs. step_handler. rewrite Hs.
  fold (under ("one-time-token:" ++ storeToken opts (body_token c))).
  fold (identifierOf opts (body_token c)).
  rewrite find_as_filter, Habs. reflexivity.
Qed.

(** A call that gets past the schema has a non-empty token. *)
Lemma past_schema opts c w e :
  fst (verifyOneTimeTokenSession opts c w) = e ->
  e <> inl InvalidInput ->
  tokenSchema (body_token c) = true.
Proof.
  unfold verifyOneTimeTokenSession. destruct (tokenSchema _); [reflexivity|].
  cbn. intros <- H. exfalso. apply H. reflexivity.
Qed.

(** ** What [generate] does to the verification table *)

Lemma generate_table opts c w :
  verifications (snd (generateOneTimeTokenSession opts c w)) =
  if disableClientRequest opts && request c then verifications w
  else Verification.Make (nextId w) (identifierOf opts (logicalToken opts c))
         (Session.token (SessionPair.session (context_session c)))
         (generate_now c + expiresIn opts * 60 * 1000)
       :: verifications w.
Proof.
  step_handler. destruct (disableClientRequest opts && request c); reflexivity.
Qed.

Lemma under_spec k v : under k v = true <-> Verification.identifier v = k.
Proof. unfold under. apply String.eqb_eq. Qed.

Lemma under_other k k' id val exp :
  k' <> k -> under k (Verification.Make id k' val exp) = false.
Proof.
  intros H. destruct (under k _) eqn:E; [|reflexivity].
  apply under_spec in E. contradiction.
Qed.

Lemma serve_keeps_absent opts k w call :
  issues opts call <> Some k -> absent k w -> absent k (serve opts w call).
Proof.
  destruct call as [c|c]; cbn [serve issues].
  - unfold absent. rewrite generate_table.
    destruct (disableClientRequest opts && request c); [tauto|].
    intros Hk H. cbn [filter]. rewrite under_other; [exact H | congruence].
  - intros _. apply verify_keeps_absent.
Qed.

Lemma serve_keeps_atMostOne opts k w call :
  issues opts call <> Some k -> atMostOne k w -> atMostOne k (serve opts w call).
Proof.
  destruct call as [c|c]; cbn [serve issues].
  - unfold atMostOne. rewrite generate_table.
    destruct (disableClientRequest opts && request c); [tauto|].
    intros Hk H. cbn [filter]. rewrite under_other; [exact H | congruence].
  - intros _. apply verify_keeps_atMostOne.
Qed.

Lemma serveAll_keeps_absent opts k calls : forall w,
  Forall (fun call => issues opts call <> Some k) calls ->
  absent k w -> absent k (serveAll opts calls w).
Proof.
  induction calls as [|call calls IH]; intros w Hall H; [exact H|].
  inversion Hall; subst. cbn. apply IH; [assumption|].
  apply serve_keeps_absent; assumption.
Qed.

Lemma serveAll_keeps_atMostOne opts k calls : forall w,
  Forall (fun call => issues opts call <> Some k) calls ->
  atMostOne k w -> atMostOne k (serveAll opts calls w).
Proof.
  induction calls as [|call calls IH]; intros w Hall H; [exact H|].
  inversion Hall; subst. cbn. apply IH; [assumption|].
  apply serve_keeps_atMostOne; assumption.
Qed.

Lemma absent_atMostOne k w : absent k w -> atMostOne k w.
Proof. unfold absent, atMostOne. intros ->. simpl. lia. Qed.

(** A successful [generate] onto a key that held nothing leaves exactly one
    record under it. *)
Lemma generate_onto_absent opts c w resp w1 :
  generateOneTimeTokenSession opts c w = (inr resp, w1) ->
  absent (identifierOf opts (GenerateResponse.token resp)) w ->
  atMostOne (identifierOf opts (GenerateResponse.token resp)) w1.
Proof.
  intros Hgen Habs.
  assert (Hw1 : w1 = snd (generateOneTimeTokenSession opts c w)) by (rewrite Hgen; reflexivity).
  unfold atMostOne. rewrite Hw1, generate_table.
  revert Hgen. step_handler.
  destruct (disableClientRequest opts && request c); [discriminate|].
  intros Hgen. injection Hgen as <- _.
  cbn [filter GenerateResponse.token] in *. unfold absent in Habs.
  fold (logicalToken opts c) in *.
  destruct (under _ _); cbn [List.length]; rewrite Habs; simpl; lia.
Qed.

(* ===================================================================== *)
(** ** Single use *)
(* ===================================================================== *)

Lemma reached_past_schema opts c w :
  reachedInvalidation (fst (verifyOneTimeTokenSession opts c w)) ->
  tokenSchema (body_token c) = true.
Proof.
  intros H. apply (past_schema opts c w _ eq_refl).
  destruct H as [H | H]; intros E; rewrite E in H; discriminate.
Qed.

(** Once a call has gone through the table under a key that held at most one
    record, every later call with the same token is refused as invalid,
    whatever else is served in between, as long as the key is not issued
    again. *)
Lemma burnt_for_good opts k c1 c2 between w :
  atMostOne k w ->
  identifierOf opts (body_token c1) = k ->
  body_token c2 = body_token c1 ->
  tokenSchema (body_token c1) = true ->
  Forall (fun call => issues opts call <> Some k) between ->
  fst (thenVerify opts between c2 (snd (verifyOneTimeTokenSession opts c1 w)))
  = inl InvalidToken.
Proof.
  intros Hone Hk Htok Hs Hquiet. subst k.
  unfold thenVerify. apply verify_absent_invalid; rewrite Htok; [exact Hs|].
  apply serveAll_keeps_absent; [exact Hquiet|].
  apply verify_clears_own_key; assumption.
Qed.

(** C1, as the code has it.  Single use: let [generate] return a token [T]
    onto a key that held no record.  Take any two later [verify] calls with
    [T], served one after the other, with any traffic before and between
    them that does not issue [T]'s key again: if the earlier call reached
    the single-use deletion (it succeeded, or failed only with "Session not
    found"), the later one fails with BAD_REQUEST "Invalid token"; so the
    two never both succeed. *)
Theorem single_use :
  forall opts c w resp w1 before c1 between c2,
    absent (identifierOf opts (GenerateResponse.token resp)) w ->
    generateOneTimeTokenSession opts c w = (inr resp, w1) ->
    body_token c1 = GenerateResponse.token resp ->
    body_token c2 = GenerateResponse.token resp ->
    Forall (fun call =>
              issues opts call <> Some (identifierOf opts (GenerateResponse.token resp)))
           (before ++ between) ->
    (reachedInvalidation (fst (thenVerify opts before c1 w1)) ->
     fst (thenVerify opts between c2 (snd (thenVerify opts before c1 w1)))
     = inl InvalidToken)
    /\ succeeded (fst (thenVerify opts before c1 w1))
       && succeeded (fst (thenVerify opts between c2 (snd (thenVerify opts before c1 w1))))
       = false.
Proof.
  intros opts c w resp w1 before c1 between c2 Habs Hgen H1 H2 Hquiet.
  apply Forall_app in Hquiet. destruct Hquiet as [Hbefore Hbetween].
  assert (Hburn :
    reachedInvalidation (fst (thenVerify opts before c1 w1)) ->
    fst (thenVerify opts between c2 (snd (thenVerify opts before c1 w1)))
    = inl InvalidToken).
  { intros Hreached. unfold thenVerify at 2.
    apply burnt_for_good with (k := identifierOf opts (GenerateResponse.token resp)).
    - apply serveAll_keeps_atMostOne; [exact Hbefore|].
      eapply generate_onto_absent; eassumption.
    - rewrite H1. reflexivity.
    - congruence.
    - eapply reached_past_schema. exact Hreached.
    - exact Hbetween. }
  split; [exact Hburn|].
  destruct (succeeded (fst (thenVerify opts before c1 w1))) eqn:Hfirst; [|reflexivity].
  rewrite Hburn; [reflexivity | left; exact Hfirst].
Qed.

Lemma single_use_witness :
  fst (thenVerify Demo.defaults
         [Verify (Demo.redeem "other" 1500)]
         (Demo.redeem "k3J9xQ2mV7pL0aZ8bN4cR6tY1uW5eH3s" 3000)
         (snd (thenVerify Demo.defaults [] (Demo.redeem "k3J9xQ2mV7pL0aZ8bN4cR6tY1uW5eH3s" 2000)
                 (snd (generateOneTimeTokenSession Demo.defaults (Demo.fromServer 1000)
                         Demo.world0)))))
  = inl InvalidToken.
Proof.
  refine (proj1 (single_use Demo.defaults (Demo.fromServer 1000) Demo.world0
                   (GenerateResponse.Make "k3J9xQ2mV7pL0aZ8bN4cR6tY1uW5eH3s") _
                   [] (Demo.redeem "k3J9xQ2mV7pL0aZ8bN4cR6tY1uW5eH3s" 2000)
                   [Verify (Demo.redeem "other" 1500)]
                   (Demo.redeem "k3J9xQ2mV7pL0aZ8bN4cR6tY1uW5eH3s" 3000)
                   _ _ _ _ _) _).
  - reflexivity.
  - reflexivity.
  - reflexivity.
  - reflexivity.
  - repeat constructor; discriminate.
  - left. reflexivity.
Defined.

(** The plugin does not enforce the invariant of spec 3, one record per
    stored token: records are not deduplicated, and a token that a fixed
    generator issues twice has two records, each redeemed once. *)
Example issued_twice_redeemed_twice :
  let opts := Demo.fixedToken "123456" plain false in
  let w1 := snd (generateOneTimeTokenSession opts (Demo.fromServer 1000) Demo.world0) in
  let w2 := snd (generateOneTimeTokenSession opts (Demo.fromServer 1001) w1) in
  let first := verifyOneTimeTokenSession opts (Demo.redeem "123456" 2000) w2 in
  let second := verifyOneTimeTokenSession opts (Demo.redeem "123456" 2001) (snd first) in
  let third := verifyOneTimeTokenSession opts (Demo.redeem "123456" 2002) (snd second) in
  succeeded (fst first) = true /\ succeeded (fst second) = true
  /\ fst third = inl InvalidToken.
Proof. vm_compute. repeat split. Qed.

(** C1 as stated fails: [generate] returns the token of a fixed generator a
    second time, onto a key that already holds the record of the first
    issue, and two [verify] calls of that token, one after the other, both
    succeed. *)
Lemma single_use_counterexample :
  ~ (forall opts c w resp w1 c1 c2,
       generateOneTimeTokenSession opts c w = (inr resp, w1) ->
       body_token c1 = GenerateResponse.token resp ->
       body_token c2 = GenerateResponse.token resp ->
       succeeded (fst (verifyOneTimeTokenSession opts c1 w1))
       && succeeded
            (fst (verifyOneTimeTokenSession opts c2
                    (snd (verifyOneTimeTokenSession opts c1 w1))))
       = false).
Proof.
  intros always.
  pose (opts := Demo.fixedToken "123456" plain false).
  pose (w := snd (generateOneTimeTokenSession opts (Demo.fromServer 1000) Demo.world0)).
  pose proof (always opts (Demo.fromServer 1001) w (GenerateResponse.Make "123456")
                (snd (generateOneTimeTokenSession opts (Demo.fromServer 1001) w))
                (Demo.redeem "123456" 2000) (Demo.redeem "123456" 2001)
                eq_refl eq_refl eq_refl) as Hboth.
  vm_compute in Hboth. discriminate Hboth.
Qed.

(* ===================================================================== *)
(** ** Expiry *)
(* ===================================================================== *)

(** What a call does once its lookup has returned [v]. *)
Lemma verify_found opts c w v :
  tokenSchema (body_token c) = true ->
  find (under (identifierOf opts (body_token c))) (verifications w) = Some v ->
  verifyOneTimeTokenSession opts c w =
  let w1 := internalAdapter.record (FindVerificationValue (identifierOf opts (body_token c))) w in
  let w2 := snd (internalAdapter.deleteVerificationValue (Verification.id v) w1) in
  if (Verification.expiresAt v <? verify_now c)%Z then (inl TokenExpired, w2)
  else
    let w3 := internalAdapter.record (FindSession (Verification.value v)) w2 in
    match internalAdapter.lookupSession w (Verification.value v) with
    | None => (inl SessionNotFound, w3)
    | Some session =>
        if createSession opts then
          let newSession :=
            Session.Make (nextId w) (Session.userId (SessionPair.session session))
              (drawn_token c) in
          (inr (VerifyResponse.Make newSession (SessionPair.user session)
                  (Some (drawn_token c))),
           snd (setSessionCookie (SessionPair.Make newSession (SessionPair.user session))
                  (snd (internalAdapter.createSession
                          (Session.userId (SessionPair.session session))
                          (drawn_token c) w3))))
        else
          (inr (VerifyResponse.Make (SessionPair.session session)
                  (SessionPair.user session) None), w3)
    end.
Proof.
  intros Hs Hf.
  step_handler. rewrite Hs.
  fold (under ("one-time-token:" ++ storeToken opts (body_token c))).
  fold (identifierOf opts (body_token c)). rewrite Hf.
  destruct (Verification.expiresAt v <? verify_now c)%Z; [reflexivity|].
  unfold internalAdapter.lookupSession.
  cbn [fst snd verifications sessions users nextId cookies journal].
  destruct (find _ (sessions w)); [|reflexivity].
  destruct (find _ (users w)); [|reflexivity].
  destruct (createSession opts); reflexivity.
Qed.

(** C2, as the code has it.  A record that the lookup returns is expired
    when its [expiresAt] is strictly before the current time: the call
    deletes it and fails with BAD_REQUEST "Token expired".  When [expiresAt]
    equals the current time or lies after it, the expiry check passes and the
    call goes on to the single-use deletion. *)
Theorem expiry_boundary :
  forall opts c w v,
    tokenSchema (body_token c) = true ->
    find (under (identifierOf opts (body_token c))) (verifications w) = Some v ->
    ((Verification.expiresAt v < verify_now c)%Z ->
       fst (verifyOneTimeTokenSession opts c w) = inl TokenExpired
       /\ verifications (snd (verifyOneTimeTokenSession opts c w))
          = filter (otherThan (Verification.id v)) (verifications w)
       /\ journal (snd (verifyOneTimeTokenSession opts c w))
          = (journal w ++ [FindVerificationValue (identifierOf opts (body_token c))]
               ++ [DeleteVerificationValue (Verification.id v)])%list)
    /\ ((verify_now c <= Verification.expiresAt v)%Z ->
          fst (verifyOneTimeTokenSession opts c w) <> inl TokenExpired
          /\ reachedInvalidation (fst (verifyOneTimeTokenSession opts c w))).
Proof.
  intros opts c w v Hs Hf. rewrite (verify_found opts c w v Hs Hf). cbv zeta.
  split; intros Ht.
  - apply Z.ltb_lt in Ht. rewrite Ht. cbn. rewrite <- app_assoc. auto.
  - apply Z.ltb_ge in Ht. rewrite Ht.
    destruct (internalAdapter.lookupSession w (Verification.value v)).
    + destruct (createSession opts); cbn; (split; [discriminate | left; reflexivity]).
    + cbn. split; [discriminate | right; reflexivity].
Qed.

Lemma expiry_boundary_witness :
  fst (verifyOneTimeTokenSession Demo.defaults
         (Demo.redeem "k3J9xQ2mV7pL0aZ8bN4cR6tY1uW5eH3s" 181001) Demo.issuedAt1000)
  = inl TokenExpired
  /\ reachedInvalidation
       (fst (verifyOneTimeTokenSession Demo.defaults
               (Demo.redeem "k3J9xQ2mV7pL0aZ8bN4cR6tY1uW5eH3s" 181000) Demo.issuedAt1000)).
Proof.
  split.
  - refine (proj1 (proj1 (expiry_boundary Demo.defaults
              (Demo.redeem "k3J9xQ2mV7pL0aZ8bN4cR6tY1uW5eH3s" 181001) Demo.issuedAt1000
              (Verification.Make 1 "one-time-token:k3J9xQ2mV7pL0aZ8bN4cR6tY1uW5eH3s"
                 "durable-1" 181000) _ _) _)); [reflexivity | reflexivity | cbn; lia].
  - refine (proj2 (proj2 (expiry_boundary Demo.defaults
              (Demo.redeem "k3J9xQ2mV7pL0aZ8bN4cR6tY1uW5eH3s" 181000) Demo.issuedAt1000
              (Verification.Make 1 "one-time-token:k3J9xQ2mV7pL0aZ8bN4cR6tY1uW5eH3s"
                 "durable-1" 181000) _ _) _)); [reflexivity | reflexivity | cbn; lia].
Defined.

(** C2 as stated fails at the boundary: a record whose [expiresAt] equals
    the current time exactly is redeemed, not refused as expired. *)
Lemma expiry_boundary_counterexample :
  ~ (forall opts c w v,
       tokenSchema (body_token c) = true ->
       find (under (identifierOf opts (body_token c))) (verifications w) = Some v ->
       (Verification.expiresAt v <= verify_now c)%Z ->
       fst (verifyOneTimeTokenSession opts c w) = inl TokenExpired).
Proof.
  intros always.
  specialize (always Demo.defaults
                (Demo.redeem "k3J9xQ2mV7pL0aZ8bN4cR6tY1uW5eH3s" 181000) Demo.issuedAt1000
                (Verification.Make 1 "one-time-token:k3J9xQ2mV7pL0aZ8bN4cR6tY1uW5eH3s"
                   "durable-1" 181000)
                eq_refl eq_refl).
  cbn in always. specialize (always (Z.le_refl _)). discriminate always.
Qed.

(* ===================================================================== *)
(** ** Client requests disabled *)
(* ===================================================================== *)

(** C3, as the code has it.  With [disableClientRequest] set, a [generate]
    call that carries a request object fails with BAD_REQUEST "Client
    requests are disabled" and leaves the world as it was: no adapter call is
    made, no record created.  A call without a request object behaves exactly
    as if the option were off, and succeeds. *)
Theorem client_requests_disabled :
  forall opts c w,
    disableClientRequest opts = true ->
    (request c = true ->
       generateOneTimeTokenSession opts c w = (inl ClientRequestsDisabled, w)
       /\ statusOf ClientRequestsDisabled = "BAD_REQUEST")
    /\ (request c = false ->
          generateOneTimeTokenSession opts c w
          = generateOneTimeTokenSession (allowClientRequest opts) c w
          /\ succeeded (fst (generateOneTimeTokenSession opts c w)) = true).
Proof.
  intros opts c w Hd. unfold generateOneTimeTokenSession. rewrite Hd.
  split; intros Hr; rewrite Hr; cbn [andb allowClientRequest disableClientRequest].
  - split; reflexivity.
  - split; reflexivity.
Qed.

Lemma client_requests_disabled_witness :
  generateOneTimeTokenSession Demo.serverOnly (Demo.fromClient 1000) Demo.world0
  = (inl ClientRequestsDisabled, Demo.world0)
  /\ succeeded (fst (generateOneTimeTokenSession Demo.serverOnly (Demo.fromServer 1000)
                       Demo.world0)) = true.
Proof.
  split.
  - refine (proj1 (proj1 (client_requests_disabled Demo.serverOnly (Demo.fromClient 1000)
                            Demo.world0 _) _)); reflexivity.
  - refine (proj2 (proj2 (client_requests_disabled Demo.serverOnly (Demo.fromServer 1000)
                            Demo.world0 _) _)); reflexivity.
Defined.

(** C3 as stated fails on the error class: the refusal is a BAD_REQUEST, not
    a FORBIDDEN. *)
Lemma client_requests_disabled_counterexample :
  ~ (forall opts c w,
       disableClientRequest opts = true ->
       request c = true ->
       exists e,
         generateOneTimeTokenSession opts c w = (inl e, w)
         /\ statusOf e = "FORBIDDEN").
Proof.
  intros always.
  destruct (always Demo.serverOnly (Demo.fromClient 1000) Demo.world0 eq_refl eq_refl)
    as (e & Hrun & Hstatus).
  cbn in Hrun. injection Hrun as <-. discriminate Hstatus.
Qed.

(* ===================================================================== *)
(** ** Input validation *)
(* ===================================================================== *)

Lemma tokenSchema_spec token : tokenSchema token = true <-> token <> "".
Proof.
  unfold tokenSchema. destruct token; cbn; split; intros H; congruence.
Qed.

(** The schema turns the empty token away and nothing else happens. *)
Lemma schema_rejects_empty opts c w :
  body_token c = "" ->
  verifyOneTimeTokenSession opts c w = (inl InvalidInput, w).
Proof.
  intros He. unfold verifyOneTimeTokenSession. rewrite He. reflexivity.
Qed.

(** A token that passes the schema is looked up first of all. *)
Lemma lookup_comes_first opts c w :
  body_token c <> "" ->
  exists rest,
    journal (snd (verifyOneTimeTokenSession opts c w))
    = (journal w ++ FindVerificationValue (identifierOf opts (body_token c)) :: rest)%list.
Proof.
  intros Hne. apply tokenSchema_spec in Hne.
  destruct (find (under (identifierOf opts (body_token c))) (verifications w))
    as [v|] eqn:Hf.
  - rewrite (verify_found opts c w v Hne Hf). cbv zeta.
    destruct (Verification.expiresAt v <? verify_now c)%Z.
    + eexists. cbn. rewrite <- app_assoc. reflexivity.
    + destruct (internalAdapter.lookupSession w (Verification.value v)).
      * destruct (createSession opts); eexists; cbn;
          rewrite <- ?app_assoc; cbn; reflexivity.
      * eexists. cbn. rewrite <- !app_assoc. reflexivity.
  - step_handler. rewrite Hne.
    fold (under ("one-time-token:" ++ storeToken opts (body_token c))).
    fold (identifierOf opts (body_token c)). rewrite Hf.
    exists []. reflexivity.
Qed.

(** C4, as the code has it.  The empty token is rejected by the schema with a
    BAD_REQUEST-class validation error before anything else happens: the call
    never waits on the store and the world, journal included, is unchanged.
    Any token of length one or more, white space or not, passes the schema
    and its record is looked up. *)
Theorem empty_token_rejected :
  forall opts c w,
    (body_token c = "" ->
       verifyOneTimeTokenSession opts c w = (inl InvalidInput, w)
       /\ statusOf InvalidInput = "BAD_REQUEST"
       /\ begin c = Settled (inl InvalidInput))
    /\ (body_token c <> "" ->
          exists rest,
            journal (snd (verifyOneTimeTokenSession opts c w))
            = (journal w
                 ++ FindVerificationValue (identifierOf opts (body_token c)) :: rest)%list).
Proof.
  intros opts c w. split.
  - intros He. split; [apply schema_rejects_empty; exact He|].
    split; [reflexivity|]. unfold begin. rewrite He. reflexivity.
  - apply lookup_comes_first.
Qed.

Lemma empty_token_rejected_witness :
  verifyOneTimeTokenSession Demo.defaults (Demo.redeem "" 2000) Demo.issuedAt1000
  = (inl InvalidInput, Demo.issuedAt1000)
  /\ exists rest,
       journal (snd (verifyOneTimeTokenSession Demo.defaults (Demo.redeem " " 2000)
                       Demo.issuedAt1000))
       = (journal Demo.issuedAt1000
            ++ FindVerificationValue (identifierOf Demo.defaults " ") :: rest)%list.
Proof.
  split.
  - refine (proj1 (proj1 (empty_token_rejected Demo.defaults (Demo.redeem "" 2000)
                            Demo.issuedAt1000) _)). reflexivity.
  - refine (proj2 (empty_token_rejected Demo.defaults (Demo.redeem " " 2000)
                     Demo.issuedAt1000) _). cbn. discriminate.
Defined.

(** C4 as stated fails on white space: a token made of one space passes the
    schema, is looked up and, when a record is stored under it, redeemed. *)
Lemma blank_token_counterexample :
  ~ (forall opts c w,
       blank (body_token c) = true ->
       exists e, verifyOneTimeTokenSession opts c w = (inl e, w)).
Proof.
  intros always.
  destruct (always (Demo.fixedToken " " plain false) (Demo.redeem " " 2000)
              (snd (generateOneTimeTokenSession (Demo.fixedToken " " plain false)
                      (Demo.fromServer 1000) Demo.world0))
              eq_refl) as (e & Hrun).
  cbn in Hrun. discriminate Hrun.
Qed.

(* ===================================================================== *)
(** ** Issuance *)
(* ===================================================================== *)

(** What a successful [generate] returns and leaves behind. *)
Lemma generate_effect opts c w resp w1 :
  generateOneTimeTokenSession opts c w = (inr resp, w1) ->
  GenerateResponse.token resp = logicalToken opts c
  /\ verifications w1
     = Verification.Make (nextId w)
         ("one-time-token:" ++ storeToken opts (GenerateResponse.token resp))
         (Session.token (SessionPair.session (context_session c)))
         (generate_now c + expiresIn opts * 60 * 1000)
       :: verifications w
  /\ sessions w1 = sessions w /\ users w1 = users w /\ cookies w1 = cookies w
  /\ journal w1
     = (journal w
          ++ [CreateVerificationValue
                ("one-time-token:" ++ storeToken opts (GenerateResponse.token resp))])%list.
Proof.
  step_handler.
  destruct (disableClientRequest opts && request c); [discriminate|].
  intros H. injection H as <- <-. cbn.
  repeat split; reflexivity.
Qed.

(** The options of this file's statements are the merged options of an
    object none of whose properties is present and undefined. *)
Lemma merge_of_present options :
  toOpts (mergeOptions (option_map asObject options)) = Some (oneTimeTokenSession options).
Proof.
  destruct options as [o|]; [|reflexivity].
  destruct o as [e d g t cs]. unfold toOpts, mergeOptions, asObject, oneTimeTokenSession.
  cbn. destruct e, d, g, t, cs; reflexivity.
Qed.

(** C6, where the code goes wrong.  The lifetime a [generate] stores is
    now + [expiresIn] minutes for the [expiresIn] the options give, and
    now + 3 minutes when the options have no [expiresIn] property or there
    are no options.  When the property is present and undefined, the spread
    puts [undefined] over the default 3: the stored [expiresAt] is an
    Invalid Date, which is before no time, so the record never expires.
    The sibling's [?? 3] gives now + 3 minutes on the same options. *)
Theorem undefined_expiresIn_loses_default :
  forall now o,
    (has_expiresIn o = IsUndefined ->
       expiresAtOf now (its_expiresIn (mergeOptions (Some o))) = InvalidDate
       /\ (forall later,
             isBefore (expiresAtOf now (its_expiresIn (mergeOptions (Some o)))) later
             = false)
       /\ expiresAtOrDefault now (its_expiresIn (mergeOptionsWithoutLifetime (Some o)))
          = TimeValue (now + 3 * 60 * 1000))
    /\ (has_expiresIn o = Missing ->
          expiresAtOf now (its_expiresIn (mergeOptions (Some o)))
          = TimeValue (now + 3 * 60 * 1000))
    /\ (forall minutes,
          has_expiresIn o = Has minutes ->
          expiresAtOf now (its_expiresIn (mergeOptions (Some o)))
          = TimeValue (now + minutes * 60 * 1000))
    /\ expiresAtOf now (its_expiresIn (mergeOptions None))
       = TimeValue (now + 3 * 60 * 1000).
Proof.
  intros now o. cbn [mergeOptions mergeOptionsWithoutLifetime its_expiresIn].
  repeat split.
  - rewrite H. reflexivity.
  - intros later. rewrite H. reflexivity.
  - rewrite H. reflexivity.
  - intros H. rewrite H. reflexivity.
  - intros minutes H. rewrite H. reflexivity.
Qed.

Lemma undefined_expiresIn_loses_default_witness :
  expiresAtOf 1000 (its_expiresIn (mergeOptions (Some lifetimeUndefined)))
  = InvalidDate
  /\ expiresAtOrDefault 1000
       (its_expiresIn (mergeOptionsWithoutLifetime (Some lifetimeUndefined)))
     = TimeValue 181000.
Proof.
  destruct (proj1 (undefined_expiresIn_loses_default 1000 lifetimeUndefined) eq_refl)
    as (Hinvalid & _ & Hsibling).
  split; [exact Hinvalid | exact Hsibling].
Defined.

(* ===================================================================== *)
(** ** Redemption without a new session *)
(* ===================================================================== *)

(** C8. With [createSession] off, a successful [verify] returns exactly the
    session and user found under the record's stored value, with a null
    token; it writes nothing to the session store and sets no cookie: its
    adapter calls are the lookup, the deletion and the session lookup. *)
Theorem no_session_created :
  forall opts c w resp w1,
    createSession opts = false ->
    verifyOneTimeTokenSession opts c w = (inr resp, w1) ->
    exists v found,
      find (under (identifierOf opts (body_token c))) (verifications w) = Some v
      /\ internalAdapter.lookupSession w (Verification.value v) = Some found
      /\ resp = VerifyResponse.Make (SessionPair.session found) (SessionPair.user found) None
      /\ sessions w1 = sessions w /\ users w1 = users w /\ cookies w1 = cookies w
      /\ nextId w1 = nextId w
      /\ journal w1
         = (journal w
              ++ [FindVerificationValue (identifierOf opts (body_token c));
                  DeleteVerificationValue (Verification.id v);
                  FindSession (Verification.value v)])%list.
Proof.
  intros opts c w resp w1 Hoff Hrun.
  destruct (tokenSchema (body_token c)) eqn:Hs.
  2:{ unfold verifyOneTimeTokenSession in Hrun. rewrite Hs in Hrun. discriminate Hrun. }
  destruct (find (under (identifierOf opts (body_token c))) (verifications w))
    as [v|] eqn:Hf.
  2:{ pose proof (verify_absent_invalid opts c w Hs) as Hinv.
      unfold absent in Hinv. rewrite find_as_filter in Hf.
      destruct (filter _ (verifications w)); [|discriminate Hf].
      rewrite Hrun in Hinv. specialize (Hinv eq_refl). discriminate Hinv. }
  rewrite (verify_found opts c w v Hs Hf) in Hrun. cbv zeta in Hrun.
  destruct (Verification.expiresAt v <? verify_now c)%Z; [discriminate Hrun|].
  destruct (internalAdapter.lookupSession w (Verification.value v)) as [found|] eqn:Hl;
    [|discriminate Hrun].
  rewrite Hoff in Hrun. injection Hrun as <- <-.
  exists v, found. cbn. rewrite <- !app_assoc.
  repeat split; try reflexivity. exact Hl.
Qed.

Lemma no_session_created_witness :
  exists v found,
    find (under (identifierOf (Demo.fixedToken "123456" plain false) "123456"))
         (verifications
            (snd (generateOneTimeTokenSession (Demo.fixedToken "123456" plain false)
                    (Demo.fromServer 1000) Demo.world0))) = Some v
    /\ internalAdapter.lookupSession
         (snd (generateOneTimeTokenSession (Demo.fixedToken "123456" plain false)
                 (Demo.fromServer 1000) Demo.world0))
         (Verification.value v) = Some found
    /\ found = Demo.current.
Proof.
  destruct (no_session_created (Demo.fixedToken "123456" plain false)
              (Demo.redeem "123456" 2000)
              (snd (generateOneTimeTokenSession (Demo.fixedToken "123456" plain false)
                      (Demo.fromServer 1000) Demo.world0))
              (VerifyResponse.Make Demo.signedIn Demo.alice None)
              _ eq_refl eq_refl)
    as (v & found & Hf & Hl & Hresp & _).
  exists v, found. repeat split; try assumption.
  injection Hf as <-. cbn in Hl. injection Hl as <-. reflexivity.
Defined.

(* ===================================================================== *)
(** ** The hashed storage transform *)
(* ===================================================================== *)

Lemma digest_length msg : List.length (Sha256.digest msg) = 32%nat.
Proof.
  unfold Sha256.digest. cbv zeta.
  generalize (fold_left Sha256.compress
                (Sha256.blocks (Nat.div (List.length (Sha256.pad msg)) 64)
                   (Sha256.words_of (Sha256.pad msg))) Sha256.initial).
  intros s. reflexivity.
Qed.

Lemma encode_length_upto n : forall bs,
  (List.length bs <= n)%nat ->
  String.length (Base64Url.encode bs) = Nat.div (4 * List.length bs + 2) 3.
Proof.
  induction n as [|n IH]; intros bs Hn.
  - destruct bs; [reflexivity | simpl in Hn; lia].
  - destruct bs as [|a [|b [|c rest]]]; try reflexivity.
    cbn [Base64Url.encode String.length List.length].
    rewrite IH by (simpl in Hn; lia).
    replace (4 * S (S (S (List.length rest))) + 2)%nat
      with (4 * 3 + (4 * List.length rest + 2))%nat by lia.
    rewrite Nat.div_add_l by discriminate. reflexivity.
Qed.

Lemma sextet_not_pad n : Base64Url.sextet n <> "="%char.
Proof.
  unfold Base64Url.sextet.
  replace 63 with (Z.ones 6) by reflexivity.
  rewrite Z.land_ones by lia.
  pose proof (Z.mod_pos_bound n (2 ^ 6) eq_refl) as Hb.
  change (2 ^ 6) with 64 in *.
  assert (Hlt : (Z.to_nat (n mod 64) < 64)%nat) by lia.
  clear Hb. revert Hlt. generalize (Z.to_nat (n mod 64)). intros k Hlt.
  do 64 (destruct k as [|k]; [cbn; discriminate|]). lia.
Qed.

Lemma encode_unpadded_upto n : forall bs,
  (List.length bs <= n)%nat ->
  forall ch, In ch (list_ascii_of_string (Base64Url.encode bs)) -> ch <> "="%char.
Proof.
  induction n as [|n IH]; intros bs Hn ch.
  - destruct bs; [intros [] | simpl in Hn; lia].
  - destruct bs as [|a [|b [|c rest]]];
      cbn [Base64Url.encode list_ascii_of_string In].
    + intros [].
    + intros [<- | [<- | []]]; apply sextet_not_pad.
    + intros [<- | [<- | [<- | []]]]; apply sextet_not_pad.
    + intros [<- | [<- | [<- | [<- | Hin]]]]; try apply sextet_not_pad.
      apply (IH rest); [simpl in Hn; lia | exact Hin].
Qed.

(** The hasher's output: 43 characters of the base64url alphabet, no ['=']. *)
Lemma defaultKeyHasher_unpadded token :
  String.length (defaultKeyHasher token) = 43%nat
  /\ forall ch, In ch (list_ascii_of_string (defaultKeyHasher token)) -> ch <> "="%char.
Proof.
  unfold defaultKeyHasher. cbv zeta. split.
  - rewrite (encode_length_upto _ _ (Nat.le_refl _)), digest_length. reflexivity.
  - apply (encode_unpadded_upto _ _ (Nat.le_refl _)).
Qed.

Lemma under_refl v : under (Verification.identifier v) v = true.
Proof. apply under_spec. reflexivity. Qed.

(** A token that was just issued, presented before its expiry while the
    issuing session is still in the store, is redeemed. *)
Lemma fresh_token_redeemed opts c w resp w1 vc found :
  generateOneTimeTokenSession opts c w = (inr resp, w1) ->
  body_token vc = GenerateResponse.token resp ->
  GenerateResponse.token resp <> "" ->
  (verify_now vc <= generate_now c + expiresIn opts * 60 * 1000)%Z ->
  internalAdapter.lookupSession w1
    (Session.token (SessionPair.session (context_session c))) = Some found ->
  succeeded (fst (verifyOneTimeTokenSession opts vc w1)) = true
  /\ exists rest,
       journal (snd (verifyOneTimeTokenSession opts vc w1))
       = (journal w1
            ++ FindVerificationValue
                 ("one-time-token:" ++ storeToken opts (GenerateResponse.token resp))
               :: rest)%list.
Proof.
  intros Hgen Htok Hne Hlive Hsess.
  destruct (generate_effect opts c w resp w1 Hgen) as (_ & Htable & _).
  assert (Hs : tokenSchema (body_token vc) = true)
    by (apply tokenSchema_spec; rewrite Htok; exact Hne).
  pose (v := Verification.Make (nextId w)
               ("one-time-token:" ++ storeToken opts (GenerateResponse.token resp))
               (Session.token (SessionPair.session (context_session c)))
               (generate_now c + expiresIn opts * 60 * 1000)).
  assert (Hf : find (under (identifierOf opts (body_token vc))) (verifications w1) = Some v).
  { rewrite Htable, Htok. cbn [find]. fold v.
    change (identifierOf opts (GenerateResponse.token resp))
      with (Verification.identifier v).
    rewrite under_refl. reflexivity. }
  split.
  - rewrite (verify_found opts vc w1 v Hs Hf). cbv zeta.
    apply Z.ltb_ge in Hlive. cbn [Verification.expiresAt Verification.value v].
    rewrite Hlive, Hsess. destruct (createSession opts); reflexivity.
  - destruct (lookup_comes_first opts vc w1) as (rest & Hj).
    + rewrite Htok. exact Hne.
    + exists rest. rewrite Hj, Htok. reflexivity.
Qed.

(** C5. Hashed round trip: with [storeToken = "hashed"], a successful
    [generate] stores its record under "one-time-token:" followed by the
    base64url rendering, 43 characters without padding, of the SHA-256
    digest of the returned token.  A later [verify] of that token, before
    expiry and while the issuing session exists, looks up that same
    identifier, computed again from the token it was given, and succeeds. *)
Theorem hashed_round_trip :
  forall opts c w resp w1,
    storeTokenOption opts = hashed ->
    generateOneTimeTokenSession opts c w = (inr resp, w1) ->
    (exists v,
       verifications w1 = v :: verifications w
       /\ Verification.identifier v
          = "one-time-token:"
              ++ Base64Url.encode
                   (Sha256.digest (bytes_of_string (GenerateResponse.token resp)))
       /\ String.length (Verification.identifier v) = 58%nat
       /\ forall ch, In ch (list_ascii_of_string (Verification.identifier v)) ->
                     ch <> "="%char)
    /\ forall vc found,
         body_token vc = GenerateResponse.token resp ->
         GenerateResponse.token resp <> "" ->
         (verify_now vc <= generate_now c + expiresIn opts * 60 * 1000)%Z ->
         internalAdapter.lookupSession w1
           (Session.token (SessionPair.session (context_session c))) = Some found ->
         succeeded (fst (verifyOneTimeTokenSession opts vc w1)) = true
         /\ exists rest,
              journal (snd (verifyOneTimeTokenSession opts vc w1))
              = (journal w1
                   ++ FindVerificationValue
                        ("one-time-token:"
                           ++ Base64Url.encode
                                (Sha256.digest
                                   (bytes_of_string (GenerateResponse.token resp))))
                      :: rest)%list.
Proof.
  intros opts c w resp w1 Hhashed Hgen.
  assert (Hkey : storeToken opts (GenerateResponse.token resp)
                 = Base64Url.encode
                     (Sha256.digest (bytes_of_string (GenerateResponse.token resp)))).
  { unfold storeToken. rewrite Hhashed. reflexivity. }
  split.
  - destruct (generate_effect opts c w resp w1 Hgen) as (_ & Htable & _).
    eexists. split; [exact Htable|].
    cbn [Verification.identifier]. rewrite Hkey.
    destruct (defaultKeyHasher_unpadded (GenerateResponse.token resp)) as [Hlen Hpad].
    unfold defaultKeyHasher in Hlen, Hpad. cbv zeta in Hlen, Hpad.
    split; [reflexivity|]. split.
    + cbn [String.append String.length]. rewrite Hlen. reflexivity.
    + intros ch. cbn [String.append list_ascii_of_string In].
      intros Hin.
      repeat (destruct Hin as [<- | Hin]; [discriminate|]).
      apply Hpad. exact Hin.
  - intros vc found Htok Hne Hlive Hsess. rewrite <- Hkey.
    eapply fresh_token_redeemed; eassumption.
Qed.

Lemma hashed_round_trip_witness :
  (exists v,
     verifications (snd (generateOneTimeTokenSession (Demo.fixedToken "123456" hashed true)
                           (Demo.fromServer 1000) Demo.world0))
     = v :: verifications Demo.world0
     /\ Verification.identifier v
        = "one-time-token:jZae727K08KaOmKSgOaGzww_XVqGr_PKEgIMkjrcbJI")
  /\ succeeded
       (fst (verifyOneTimeTokenSession (Demo.fixedToken "123456" hashed true)
               (Demo.redeem "123456" 181000)
               (snd (generateOneTimeTokenSession (Demo.fixedToken "123456" hashed true)
                       (Demo.fromServer 1000) Demo.world0)))) = true.
Proof.
  pose proof (hashed_round_trip (Demo.fixedToken "123456" hashed true)
                (Demo.fromServer 1000) Demo.world0
                (GenerateResponse.Make "123456")
                (snd (generateOneTimeTokenSession (Demo.fixedToken "123456" hashed true)
                        (Demo.fromServer 1000) Demo.world0))
                eq_refl eq_refl) as [(v & Htable & Hid & _) Hverify].
  split.
  - exists v. split; [exact Htable|]. rewrite Hid. vm_compute. reflexivity.
  - refine (proj1 (Hverify (Demo.redeem "123456" 181000) Demo.current _ _ _ _)).
    + reflexivity.
    + discriminate.
    + cbn. lia.
    + reflexivity.
Defined.

(* ===================================================================== *)
(** ** A vanished session burns the token *)
(* ===================================================================== *)

(** C7. When the lookup returns a record that has not expired and no session
    is stored under the record's value, [verify] fails with BAD_REQUEST
    "Session not found".  The deletion comes before the session lookup in
    the journal, and the world the error leaves behind no longer holds the
    record.  If the record was the only one under its key, every later
    [verify] of the token fails with "Invalid token", whatever is served in
    between, as long as the key is not issued again. *)
Theorem session_not_found_burns :
  forall opts c w v,
    tokenSchema (body_token c) = true ->
    find (under (identifierOf opts (body_token c))) (verifications w) = Some v ->
    (verify_now c <= Verification.expiresAt v)%Z ->
    internalAdapter.lookupSession w (Verification.value v) = None ->
    fst (verifyOneTimeTokenSession opts c w) = inl SessionNotFound
    /\ statusOf SessionNotFound = "BAD_REQUEST"
    /\ journal (snd (verifyOneTimeTokenSession opts c w))
       = (journal w
            ++ [FindVerificationValue (identifierOf opts (body_token c));
                DeleteVerificationValue (Verification.id v);
                FindSession (Verification.value v)])%list
    /\ verifications (snd (verifyOneTimeTokenSession opts c w))
       = filter (otherThan (Verification.id v)) (verifications w)
    /\ ~ In v (verifications (snd (verifyOneTimeTokenSession opts c w)))
    /\ (atMostOne (identifierOf opts (body_token c)) w ->
        forall between c2,
          body_token c2 = body_token c ->
          Forall (fun call => issues opts call <> Some (identifierOf opts (body_token c)))
                 between ->
          fst (thenVerify opts between c2 (snd (verifyOneTimeTokenSession opts c w)))
          = inl InvalidToken).
Proof.
  intros opts c w v Hs Hf Hlive Hgone.
  assert (Hrun : verifyOneTimeTokenSession opts c w
                 = (inl SessionNotFound,
                    internalAdapter.record (FindSession (Verification.value v))
                      (snd (internalAdapter.deleteVerificationValue (Verification.id v)
                              (internalAdapter.record
                                 (FindVerificationValue (identifierOf opts (body_token c)))
                                 w))))).
  { rewrite (verify_found opts c w v Hs Hf). cbv zeta.
    apply Z.ltb_ge in Hlive. rewrite Hlive, Hgone. reflexivity. }
  split; [rewrite Hrun; reflexivity|]. split; [reflexivity|].
  split; [rewrite Hrun; cbn; rewrite <- !app_assoc; reflexivity|].
  assert (Htable : verifications (snd (verifyOneTimeTokenSession opts c w))
                   = filter (otherThan (Verification.id v)) (verifications w))
    by (rewrite Hrun; reflexivity).
  split; [exact Htable|]. split.
  - rewrite Htable. intros Hin. apply filter_In in Hin. destruct Hin as [_ Hin].
    rewrite otherThan_self in Hin. discriminate Hin.
  - intros Hone between c2 Htok Hquiet.
    apply burnt_for_good with (k := identifierOf opts (body_token c)); auto.
Qed.

Lemma session_not_found_burns_witness :
  fst (verifyOneTimeTokenSession Demo.defaults
         (Demo.redeem "k3J9xQ2mV7pL0aZ8bN4cR6tY1uW5eH3s" 2000) Demo.signedOut)
  = inl SessionNotFound
  /\ fst (thenVerify Demo.defaults [] (Demo.redeem "k3J9xQ2mV7pL0aZ8bN4cR6tY1uW5eH3s" 2500)
            (snd (verifyOneTimeTokenSession Demo.defaults
                    (Demo.redeem "k3J9xQ2mV7pL0aZ8bN4cR6tY1uW5eH3s" 2000) Demo.signedOut)))
     = inl InvalidToken.
Proof.
  pose proof (session_not_found_burns Demo.defaults
                (Demo.redeem "k3J9xQ2mV7pL0aZ8bN4cR6tY1uW5eH3s" 2000) Demo.signedOut
                (Verification.Make 1 "one-time-token:k3J9xQ2mV7pL0aZ8bN4cR6tY1uW5eH3s"
                   "durable-1" 181000)
                eq_refl eq_refl) as H.
  cbn [verify_now Demo.redeem Verification.expiresAt Verification.value] in H.
  specialize (H ltac:(lia) eq_refl).
  destruct H as (Hfail & _ & _ & _ & _ & Hlater).
  split; [exact Hfail|].
  apply Hlater.
  - unfold atMostOne. cbn. lia.
  - reflexivity.
  - constructor.
Defined.

(* ===================================================================== *)
(** ** The empty token *)
(* ===================================================================== *)

(** Two stored records with one identity are one record. *)
Lemma same_identity l (a b : Verification.t) :
  NoDup (map Verification.id l) ->
  In a l -> In b l -> Verification.id a = Verification.id b -> a = b.
Proof.
  induction l as [|x l IH]; cbn; intros Hnd Ha Hb Hab; [contradiction|].
  inversion Hnd as [|? ? Hnot Hnd']; subst.
  destruct Ha as [-> | Ha], Hb as [-> | Hb].
  - reflexivity.
  - exfalso. apply Hnot. rewrite Hab. apply in_map. exact Hb.
  - exfalso. apply Hnot. rewrite <- Hab. apply in_map. exact Ha.
  - apply IH; assumption.
Qed.

(** Deleting keeps the identities of the table distinct. *)
Lemma identities_after_delete id l :
  NoDup (map Verification.id l) ->
  NoDup (map Verification.id (filter (otherThan id) l)).
Proof.
  induction l as [|x l IH]; cbn; intros Hnd; [constructor|].
  inversion Hnd as [|? ? Hnot Hnd']; subst.
  destruct (otherThan id x); cbn; [|apply IH; exact Hnd'].
  constructor; [|apply IH; exact Hnd'].
  intros Hin. apply Hnot. apply in_map_iff in Hin. destruct Hin as (y & Hy & Hin).
  apply filter_In in Hin. rewrite <- Hy. apply in_map. tauto.
Qed.

Lemma verify_nextId opts c w :
  (nextId w <= nextId (snd (verifyOneTimeTokenSession opts c w)))%nat.
Proof.
  destruct (tokenSchema (body_token c)) eqn:Hs.
  2:{ unfold verifyOneTimeTokenSession. rewrite Hs. cbn. lia. }
  destruct (find (under (identifierOf opts (body_token c))) (verifications w))
    as [v|] eqn:Hf.
  - rewrite (verify_found opts c w v Hs Hf). cbv zeta.
    destruct (Verification.expiresAt v <? verify_now c)%Z; [cbn; lia|].
    destruct (internalAdapter.lookupSession w (Verification.value v)); [|cbn; lia].
    destruct (createSession opts); cbn; lia.
  - step_handler. rewrite Hs.
    fold (under ("one-time-token:" ++ storeToken opts (body_token c))).
    fold (identifierOf opts (body_token c)). rewrite Hf. cbn. lia.
Qed.

Lemma serve_keeps_identities opts w call :
  identitiesFresh w -> identitiesFresh (serve opts w call).
Proof.
  intros [Hnd Hlt]. destruct call as [c|c]; cbn [serve]; split.
  - rewrite generate_table.
    destruct (disableClientRequest opts && request c); [exact Hnd|].
    cbn. constructor; [|exact Hnd].
    intros Hin. apply in_map_iff in Hin. destruct Hin as (v & Hv & Hin).
    specialize (Hlt v Hin). lia.
  - intros v. rewrite generate_table. step_handler.
    destruct (disableClientRequest opts && request c); cbn; [apply Hlt|].
    intros [<- | Hin]; [cbn; lia | specialize (Hlt v Hin); lia].
  - rewrite verify_table.
    destruct (tokenSchema _); [|exact Hnd].
    destruct (find _ _); [apply identities_after_delete|]; exact Hnd.
  - intros v Hin.
    pose proof (verify_nextId opts c w) as Hmono.
    rewrite verify_table in Hin.
    assert (Hold : In v (verifications w)).
    { destruct (tokenSchema _); [|exact Hin].
      destruct (find _ _); [apply filter_In in Hin; tauto | exact Hin]. }
    specialize (Hlt v Hold). lia.
Qed.

(** A record stays in the table through every call that does not look its
    key up. *)
Lemma serve_spares opts w call r :
  identitiesFresh w ->
  In r (verifications w) ->
  (forall c, call = Verify c -> tokenSchema (body_token c) = true ->
             identifierOf opts (body_token c) <> Verification.identifier r) ->
  In r (verifications (serve opts w call)).
Proof.
  intros [Hnd _] Hin Hother. destruct call as [c|c]; cbn [serve].
  - rewrite generate_table.
    destruct (disableClientRequest opts && request c); [exact Hin | right; exact Hin].
  - rewrite verify_table.
    destruct (tokenSchema (body_token c)) eqn:Hs; [|exact Hin].
    destruct (find _ _) as [v|] eqn:Hf; [|exact Hin].
    apply filter_In. split; [exact Hin|].
    unfold otherThan. destruct (Nat.eqb_spec (Verification.id r) (Verification.id v)) as [E|];
      [|reflexivity].
    exfalso. apply find_some in Hf. destruct Hf as [Hv Hk].
    apply under_spec in Hk.
    assert (r = v) by (eapply same_identity; eassumption).
    subst v. apply (Hother c eq_refl Hs). symmetry. exact Hk.
Qed.

Lemma serveAll_spares opts calls r : forall w,
  identitiesFresh w ->
  In r (verifications w) ->
  (forall c, In (Verify c) calls -> tokenSchema (body_token c) = true ->
             identifierOf opts (body_token c) <> Verification.identifier r) ->
  In r (verifications (serveAll opts calls w)).
Proof.
  induction calls as [|call calls IH]; intros w Hfresh Hin Hother; [exact Hin|].
  cbn. apply IH.
  - apply serve_keeps_identities. exact Hfresh.
  - apply serve_spares; [exact Hfresh | exact Hin |].
    intros c -> Hs. apply Hother; [left; reflexivity | exact Hs].
  - intros c Hc. apply Hother. right. exact Hc.
Qed.

(** C10. If the caller-supplied [generateToken] returns the empty string,
    [generate] still succeeds, returns the empty token and stores a record
    under "one-time-token:" followed by the transform of the empty string.
    [verify] of the empty token is rejected by the schema in every world,
    before any adapter call.  The record is therefore never redeemed: as
    long as the transform sends no other token to the same key and the store
    hands out each identity once, it is still in the table after any
    sequence of [generate] and [verify] calls. *)
Theorem empty_token_unredeemable :
  forall opts c w generate,
    generateToken opts = Some generate ->
    generate (context_session c) c = "" ->
    disableClientRequest opts && request c = false ->
    let r := Verification.Make (nextId w) ("one-time-token:" ++ storeToken opts "")
               (Session.token (SessionPair.session (context_session c)))
               (generate_now c + expiresIn opts * 60 * 1000) in
    let w1 := snd (generateOneTimeTokenSession opts c w) in
    fst (generateOneTimeTokenSession opts c w) = inr (GenerateResponse.Make "")
    /\ verifications w1 = r :: verifications w
    /\ (forall vc w',
          body_token vc = "" ->
          verifyOneTimeTokenSession opts vc w' = (inl InvalidInput, w'))
    /\ (identitiesFresh w ->
        (forall token, storeToken opts token = storeToken opts "" -> token = "") ->
        forall calls, In r (verifications (serveAll opts calls w1))).
Proof.
  intros opts c w generate Hgen Hempty Hallowed r w1.
  assert (Hrun : generateOneTimeTokenSession opts c w
                 = (inr (GenerateResponse.Make ""),
                    snd (internalAdapter.createVerificationValue
                           (Session.token (SessionPair.session (context_session c)))
                           ("one-time-token:" ++ storeToken opts "")
                           (generate_now c + expiresIn opts * 60 * 1000) w))).
  { unfold generateOneTimeTokenSession. rewrite Hallowed, Hgen, Hempty. reflexivity. }
  subst w1.
  split; [rewrite Hrun; reflexivity|]. split; [rewrite Hrun; reflexivity|]. split.
  - intros vc w' He. apply schema_rejects_empty. exact He.
  - intros Hfresh Hinj calls.
    apply serveAll_spares.
    + apply (serve_keeps_identities opts w (Generate c)). exact Hfresh.
    + rewrite Hrun. left. reflexivity.
    + intros vc _ Hs Hsame. apply tokenSchema_spec in Hs. apply Hs.
      apply Hinj. apply prefix_cancel. exact Hsame.
Qed.

Lemma empty_token_unredeemable_witness :
  fst (generateOneTimeTokenSession (Demo.fixedToken "" plain true)
         (Demo.fromServer 1000) Demo.world0) = inr (GenerateResponse.Make "")
  /\ In (Verification.Make 1 "one-time-token:" "durable-1" 181000)
        (verifications
           (serveAll (Demo.fixedToken "" plain true)
              [Verify (Demo.redeem "" 2000); Verify (Demo.redeem " " 2000)]
              (snd (generateOneTimeTokenSession (Demo.fixedToken "" plain true)
                      (Demo.fromServer 1000) Demo.world0)))).
Proof.
  pose proof (empty_token_unredeemable (Demo.fixedToken "" plain true)
                (Demo.fromServer 1000) Demo.world0 (fun _ _ => "")
                eq_refl eq_refl eq_refl) as H.
  cbv zeta in H. destruct H as (Hok & _ & _ & Hstays).
  split; [exact Hok|].
  apply Hstays.
  - split; [constructor | intros v []].
  - intros token Htok. exact Htok.
Defined.

(** The record outlives all traffic only if its key is its own: under a
    caller-supplied hasher that sends every token to one key, another token
    reaches the record of the empty one. *)
Example colliding_hasher_redeems :
  let opts := Demo.fixedToken "" (custom_hasher (fun _ => "same")) false in
  let w1 := snd (generateOneTimeTokenSession opts (Demo.fromServer 1000) Demo.world0) in
  succeeded (fst (verifyOneTimeTokenSession opts (Demo.redeem "x" 2000) w1)) = true.
Proof. vm_compute. reflexivity. Qed.

(* ===================================================================== *)
(** ** Two redemptions in flight *)
(* ===================================================================== *)

Lemma drain_settled n opts c r w : drain n opts c (Settled r) w = (Settled r, w).
Proof. induction n as [|n IH]; [reflexivity | cbn; exact IH]. Qed.

Lemma drain_add n m opts c : forall t w,
  drain (n + m) opts c t w
  = drain m opts c (fst (drain n opts c t w)) (snd (drain n opts c t w)).
Proof.
  induction n as [|n IH]; intros t w; [reflexivity|].
  cbn [Nat.add drain]. destruct (resume opts c t w) as [t' w']. apply IH.
Qed.

(** Five awaited calls are the most a redemption makes: whatever state it is
    in, it has settled after five. *)
Lemma drain_settles opts c t w :
  exists r, fst (drain 5 opts c t w) = Settled r.
Proof.
  destruct t; cbn;
    repeat match goal with
      | |- context [find ?p (verifications w)] =>
          destruct (find p (verifications w)); cbn
      | |- context [(?a <? ?b)%Z] => destruct (a <? b)%Z; cbn
      | |- context [internalAdapter.lookupSession ?x ?y] =>
          destruct (internalAdapter.lookupSession x y); cbn
      | |- context [createSession opts] => destruct (createSession opts); cbn
      end; eauto.
Qed.

(** One more awaited call taking effect does not change where a redemption
    ends. *)
Lemma drain_resume opts c t w :
  drain 5 opts c (fst (resume opts c t w)) (snd (resume opts c t w))
  = drain 5 opts c t w.
Proof.
  transitivity (drain (1 + 5) opts c t w).
  - cbn [Nat.add drain]. destruct (resume opts c t w); reflexivity.
  - change (1 + 5)%nat with (5 + 1)%nat. rewrite drain_add.
    destruct (drain_settles opts c t w) as [r Hr].
    destruct (drain 5 opts c t w) as [t5 w5]. cbn [fst snd] in *. subst t5.
    reflexivity.
Qed.

(** Run alone, the suspended redemption is the endpoint. *)
Lemma drain_alone opts c w :
  drain 5 opts c (begin c) w
  = (Settled (fst (verifyOneTimeTokenSession opts c w)),
     snd (verifyOneTimeTokenSession opts c w)).
Proof.
  unfold begin, verifyOneTimeTokenSession.
  destruct (tokenSchema (body_token c)); [|apply drain_settled].
  step_handler. crunch.
  destruct (find _ (verifications w)) as [v|]; crunch; [|reflexivity].
  destruct (Verification.expiresAt v <? verify_now c)%Z; crunch; [reflexivity|].
  destruct (find _ (sessions w)); crunch; [|reflexivity].
  destruct (find _ (users w)); crunch; [|reflexivity].
  destruct (createSession opts); crunch; reflexivity.
Qed.

Lemma resume_table opts c t w :
  verifications (snd (resume opts c t w)) =
  match t with
  | AwaitCleanup v | AwaitInvalidate v =>
      filter (otherThan (Verification.id v)) (verifications w)
  | _ => verifications w
  end.
Proof. destruct t; reflexivity. Qed.

Lemma resume_keeps_absent opts c k t w :
  absent k w -> absent k (snd (resume opts c t w)).
Proof.
  unfold absent. rewrite resume_table.
  destruct t; auto using delete_keeps_absent.
Qed.

Lemma drain_keeps_absent opts c k n : forall t w,
  absent k w -> absent k (snd (drain n opts c t w)).
Proof.
  induction n as [|n IH]; intros t w H; [exact H|].
  cbn [drain]. pose proof (resume_keeps_absent opts c k t w H) as H'.
  destruct (resume opts c t w) as [t' w']. apply IH. exact H'.
Qed.

Lemma sameStore_refl w : sameStore w w.
Proof. repeat split. Qed.

(** The store decides what a pending call returns; the journal does not. *)
Lemma resume_sameStore opts c t w w' :
  sameStore w w' ->
  fst (resume opts c t w) = fst (resume opts c t w')
  /\ sameStore (snd (resume opts c t w)) (snd (resume opts c t w')).
Proof.
  destruct w as [vs ss us n cs j], w' as [vs' ss' us' n' cs' j'].
  unfold sameStore. cbn [verifications sessions users nextId cookies].
  intros (<- & <- & <- & <- & <-).
  destruct t; step_call; unfold internalAdapter.lookupSession;
    cbn [verifications sessions users nextId cookies];
    repeat split; reflexivity.
Qed.

Lemma drain_sameStore opts c n : forall t w w',
  sameStore w w' ->
  fst (drain n opts c t w) = fst (drain n opts c t w').
Proof.
  induction n as [|n IH]; intros t w w' Hsame; [reflexivity|].
  cbn [drain]. destruct (resume_sameStore opts c t w w' Hsame) as [Ht Hw].
  destruct (resume opts c t w) as [t1 w1], (resume opts c t w') as [t2 w2].
  cbn [fst snd] in *. subst t2. apply IH. exact Hw.
Qed.

(** A lookup that finds nothing settles the call and changes the journal
    only. *)
Lemma resume_lookup_absent opts c w :
  absent (identifierOf opts (body_token c)) w ->
  fst (resume opts c AwaitLookup w) = Settled (inl InvalidToken)
  /\ sameStore w (snd (resume opts c AwaitLookup w)).
Proof.
  unfold absent. intros Habs. step_call.
  fold (under ("one-time-token:" ++ storeToken opts (body_token c))).
  fold (identifierOf opts (body_token c)).
  rewrite find_as_filter, Habs. split; [reflexivity | repeat split].
Qed.

(** While nothing is stored under the second call's key, the second call can
    only settle as an invalid token, and it does not disturb the first. *)
Lemma second_turns_away opts c1 c2 final : forall schedule r,
  absent (identifierOf opts (body_token c2)) (shared r) ->
  secondCall r = AwaitLookup \/ secondCall r = Settled (inl InvalidToken) ->
  fst (drain 5 opts c1 (firstCall r) (shared r)) = final ->
  absent (identifierOf opts (body_token c2)) (shared (fold_left (turn opts c1 c2) schedule r))
  /\ (secondCall (fold_left (turn opts c1 c2) schedule r) = AwaitLookup
      \/ secondCall (fold_left (turn opts c1 c2) schedule r) = Settled (inl InvalidToken))
  /\ fst (drain 5 opts c1 (firstCall (fold_left (turn opts c1 c2) schedule r))
            (shared (fold_left (turn opts c1 c2) schedule r))) = final.
Proof.
  induction schedule as [|who schedule IH]; intros r Habs Hsecond Hfinal; [auto|].
  cbn [fold_left]. apply IH; clear IH.
  - unfold turn. destruct who.
    + pose proof (resume_keeps_absent opts c1 _ (firstCall r) _ Habs) as H.
      destruct (resume opts c1 (firstCall r) (shared r)); exact H.
    + pose proof (resume_keeps_absent opts c2 _ (secondCall r) _ Habs) as H.
      destruct (resume opts c2 (secondCall r) (shared r)); exact H.
  - unfold turn. destruct who.
    + destruct (resume opts c1 (firstCall r) (shared r)); exact Hsecond.
    + destruct Hsecond as [E | E]; rewrite E.
      * pose proof (proj1 (resume_lookup_absent opts c2 _ Habs)) as H.
        destruct (resume opts c2 AwaitLookup (shared r)). right. exact H.
      * right. reflexivity.
  - unfold turn. destruct who.
    + pose proof (drain_resume opts c1 (firstCall r) (shared r)) as H.
      destruct (resume opts c1 (firstCall r) (shared r)). cbn [firstCall shared fst snd] in *.
      rewrite H. exact Hfinal.
    + destruct Hsecond as [E | E]; rewrite E.
      * pose proof (proj2 (resume_lookup_absent opts c2 _ Habs)) as H.
        destruct (resume opts c2 AwaitLookup (shared r)). cbn [firstCall shared fst snd] in *.
        rewrite <- (drain_sameStore opts c1 5 (firstCall r) _ _ H). exact Hfinal.
      * cbn [resume firstCall shared]. exact Hfinal.
Qed.

(** After its lookup and the deletion that follows, a call has left nothing
    under its key, if the key held at most one record. *)
Lemma two_steps_clear opts c w :
  tokenSchema (body_token c) = true ->
  atMostOne (identifierOf opts (body_token c)) w ->
  absent (identifierOf opts (body_token c)) (snd (drain 2 opts c (begin c) w)).
Proof.
  intros Hs Hone. unfold begin, absent. rewrite Hs. step_call.
  fold (under ("one-time-token:" ++ storeToken opts (body_token c))).
  fold (identifierOf opts (body_token c)).
  destruct (find _ _) as [v|] eqn:Hf.
  - destruct (Verification.expiresAt v <? verify_now c)%Z; step_call;
      fold (otherThan (Verification.id v)); apply delete_found_clears; assumption.
  - step_call. rewrite find_as_filter in Hf.
    destruct (filter _ (verifications w)); [reflexivity | discriminate].
Qed.

Lemma two_turns opts c1 c2 w :
  turn opts c1 c2
    (turn opts c1 c2
       {| firstCall := begin c1; secondCall := begin c2; shared := w |} true) true
  = {| firstCall := fst (drain 2 opts c1 (begin c1) w);
       secondCall := begin c2;
       shared := snd (drain 2 opts c1 (begin c1) w) |}.
Proof.
  unfold turn. cbn [drain firstCall secondCall shared].
  destruct (resume opts c1 (begin c1) w) as [ta wa]. cbn [firstCall secondCall shared].
  destruct (resume opts c1 ta wa) as [tb wb]. reflexivity.
Qed.

(** X19. Two [verify] calls with the same token over a key that holds at
    most one record: when the lookup and the deletion of one call take
    effect before the lookup of the other, then, however the remaining
    awaited calls interleave, the first call ends as it would alone and the
    other fails with BAD_REQUEST "Invalid token". *)
Theorem serialized_redemption :
  forall opts c1 c2 w rest,
    body_token c2 = body_token c1 ->
    body_token c1 <> "" ->
    atMostOne (identifierOf opts (body_token c1)) w ->
    firstCall (race opts c1 c2 (true :: true :: rest) w)
    = Settled (fst (verifyOneTimeTokenSession opts c1 w))
    /\ secondCall (race opts c1 c2 (true :: true :: rest) w)
       = Settled (inl InvalidToken).
Proof.
  intros opts c1 c2 w rest Htok Hne Hone.
  apply tokenSchema_spec in Hne.
  assert (Hs2 : tokenSchema (body_token c2) = true) by (rewrite Htok; exact Hne).
  unfold race. cbn [fold_left]. rewrite two_turns.
  destruct (second_turns_away opts c1 c2
              (Settled (fst (verifyOneTimeTokenSession opts c1 w))) rest
              {| firstCall := fst (drain 2 opts c1 (begin c1) w);
                 secondCall := begin c2;
                 shared := snd (drain 2 opts c1 (begin c1) w) |})
    as (Habs & Hsecond & Hfirst).
  - cbn [shared]. rewrite Htok. apply two_steps_clear; assumption.
  - left. cbn [secondCall]. unfold begin. rewrite Hs2. reflexivity.
  - cbn [firstCall shared]. rewrite <- drain_add.
    change (2 + 5)%nat with (5 + 2)%nat. rewrite drain_add, drain_alone.
    cbn [fst snd]. rewrite drain_settled. reflexivity.
  - set (r := fold_left (turn opts c1 c2) rest _) in *.
    pose proof (drain_keeps_absent opts c1 _ 5 (firstCall r) (shared r) Habs) as Habs1.
    destruct (drain 5 opts c1 (firstCall r) (shared r)) as [t1 w1].
    cbn [fst snd] in *.
    destruct (drain 5 opts c2 (secondCall r) w1) as [t2 w2] eqn:Hd2.
    cbn [firstCall secondCall]. split; [exact Hfirst|].
    change t2 with (fst (t2, w2)). rewrite <- Hd2.
    destruct Hsecond as [E | E]; rewrite E.
    + cbn [drain]. pose proof (proj1 (resume_lookup_absent opts c2 w1 Habs1)) as H.
      destruct (resume opts c2 AwaitLookup w1) as [t w']. cbn [fst] in H. subst t.
      apply (f_equal fst (drain_settled 4 opts c2 _ w')).
    + rewrite drain_settled. reflexivity.
Qed.

Lemma serialized_redemption_witness :
  firstCall (race Demo.defaults
               (Demo.redeem "k3J9xQ2mV7pL0aZ8bN4cR6tY1uW5eH3s" 2000)
               (Demo.redeem "k3J9xQ2mV7pL0aZ8bN4cR6tY1uW5eH3s" 2000)
               [true; true; false; true; false; true] Demo.issuedAt1000)
  = Settled (fst (verifyOneTimeTokenSession Demo.defaults
                    (Demo.redeem "k3J9xQ2mV7pL0aZ8bN4cR6tY1uW5eH3s" 2000)
                    Demo.issuedAt1000))
  /\ secondCall (race Demo.defaults
                   (Demo.redeem "k3J9xQ2mV7pL0aZ8bN4cR6tY1uW5eH3s" 2000)
                   (Demo.redeem "k3J9xQ2mV7pL0aZ8bN4cR6tY1uW5eH3s" 2000)
                   [true; true; false; true; false; true] Demo.issuedAt1000)
     = Settled (inl InvalidToken).
Proof.
  apply (serialized_redemption Demo.defaults
           (Demo.redeem "k3J9xQ2mV7pL0aZ8bN4cR6tY1uW5eH3s" 2000)
           (Demo.redeem "k3J9xQ2mV7pL0aZ8bN4cR6tY1uW5eH3s" 2000)
           Demo.issuedAt1000 [false; true; false; true]).
  - reflexivity.
  - discriminate.
  - unfold atMostOne. cbn. lia.
Defined.

(** C9, where the code goes wrong.  One token issued once, two [verify]
    calls of it in flight: when both lookups take effect before either
    deletion, both calls find the record; the handler does not look at what
    its deletion removed, so both calls go on, both succeed and two sessions
    are created, although each adapter call, the deletions included, takes
    effect on its own. *)
Theorem concurrent_redemption_both_succeed :
  atMostOne (identifierOf Demo.defaults "k3J9xQ2mV7pL0aZ8bN4cR6tY1uW5eH3s")
            Demo.issuedAt1000
  /\ exists r1 r2,
       firstCall (race Demo.defaults
                    (Demo.redeem "k3J9xQ2mV7pL0aZ8bN4cR6tY1uW5eH3s" 2000)
                    (Demo.redeem "k3J9xQ2mV7pL0aZ8bN4cR6tY1uW5eH3s" 2000)
                    [true; false] Demo.issuedAt1000) = Settled (inr r1)
       /\ secondCall (race Demo.defaults
                        (Demo.redeem "k3J9xQ2mV7pL0aZ8bN4cR6tY1uW5eH3s" 2000)
                        (Demo.redeem "k3J9xQ2mV7pL0aZ8bN4cR6tY1uW5eH3s" 2000)
                        [true; false] Demo.issuedAt1000) = Settled (inr r2)
       /\ List.length
            (sessions (shared (race Demo.defaults
                                 (Demo.redeem "k3J9xQ2mV7pL0aZ8bN4cR6tY1uW5eH3s" 2000)
                                 (Demo.redeem "k3J9xQ2mV7pL0aZ8bN4cR6tY1uW5eH3s" 2000)
                                 [true; false] Demo.issuedAt1000)))
          = (2 + List.length (sessions Demo.issuedAt1000))%nat.
Proof.
  split; [unfold atMostOne; cbn; lia|].
  vm_compute. eexists. eexists. repeat split; reflexivity.
Qed.



(* ===================================================================== *)
(** * Further properties *)
(* ===================================================================== *)

(** ** The key hasher *)

Lemma sextet_url_safe n : urlSafe (Base64Url.sextet n) = true.
Proof.
  unfold Base64Url.sextet.
  replace 63 with (Z.ones 6) by reflexivity.
  rewrite Z.land_ones by lia.
  pose proof (Z.mod_pos_bound n (2 ^ 6) eq_refl) as Hb.
  change (2 ^ 6) with 64 in *.
  assert (Hlt : (Z.to_nat (n mod 64) < 64)%nat) by lia.
  clear Hb. revert Hlt. generalize (Z.to_nat (n mod 64)). intros k Hlt.
  do 64 (destruct k as [|k]; [vm_compute; reflexivity|]). lia.
Qed.

Lemma encode_url_safe_upto n : forall bs,
  (List.length bs <= n)%nat ->
  forallb urlSafe (list_ascii_of_string (Base64Url.encode bs)) = true.
Proof.
  induction n as [|n IH]; intros bs Hn.
  - destruct bs; [reflexivity | simpl in Hn; lia].
  - destruct bs as [|a [|b [|c rest]]];
      cbn [Base64Url.encode list_ascii_of_string forallb];
      rewrite ?sextet_url_safe; try reflexivity.
    apply (IH rest). simpl in Hn. lia.
Qed.

(** X1. Whatever the token, the hasher returns 43 characters, each a letter,
    a digit, ['-'] or ['_']: the stored key is safe in a URL and carries no
    padding. *)
Theorem defaultKeyHasher_url_safe :
  forall token,
    String.length (defaultKeyHasher token) = 43%nat
    /\ forallb urlSafe (list_ascii_of_string (defaultKeyHasher token)) = true.
Proof.
  intros token. unfold defaultKeyHasher. cbv zeta. split.
  - rewrite (encode_length_upto _ _ (Nat.le_refl _)), digest_length. reflexivity.
  - apply (encode_url_safe_upto _ _ (Nat.le_refl _)).
Qed.

(** Checking a property of bytes by running through all of them. *)
Lemma every_byte (check : Z -> bool) :
  forallb check (map Z.of_nat (seq 0 256)) = true ->
  forall b, isByte b -> check b = true.
Proof.
  intros Hall b [Hlo Hhi]. rewrite forallb_forall in Hall. apply Hall.
  apply in_map_iff. exists (Z.to_nat b). split; [lia|].
  apply in_seq. lia.
Qed.

Lemma every_two_bytes (check : Z -> Z -> bool) :
  forallb (fun a => forallb (check a) (map Z.of_nat (seq 0 256)))
          (map Z.of_nat (seq 0 256)) = true ->
  forall a b, isByte a -> isByte b -> check a b = true.
Proof.
  intros Hall a b Ha Hb.
  apply (every_byte (check a)); [|exact Hb].
  apply (every_byte (fun a => forallb (check a) (map Z.of_nat (seq 0 256)))); assumption.
Qed.

(** The four six-bit groups of three bytes, as arithmetic. *)
Lemma group_first a : isByte a -> Z.land (Z.shiftr a 2) 63 = a / 4.
Proof.
  intros Ha. apply Z.eqb_eq.
  apply (every_byte (fun a => (Z.land (Z.shiftr a 2) 63 =? a / 4)%Z)); [|exact Ha].
  vm_compute. reflexivity.
Qed.

Lemma group_second a b :
  isByte a -> isByte b ->
  Z.land (Z.lor (Z.shiftl a 4) (Z.shiftr b 4)) 63 = (a mod 4) * 16 + b / 16.
Proof.
  intros Ha Hb. apply Z.eqb_eq.
  apply (every_two_bytes
           (fun a b => (Z.land (Z.lor (Z.shiftl a 4) (Z.shiftr b 4)) 63
                        =? (a mod 4) * 16 + b / 16)%Z)); [|exact Ha|exact Hb].
  vm_compute. reflexivity.
Qed.

Lemma group_third b c :
  isByte b -> isByte c ->
  Z.land (Z.lor (Z.shiftl b 2) (Z.shiftr c 6)) 63 = (b mod 16) * 4 + c / 64.
Proof.
  intros Hb Hc. apply Z.eqb_eq.
  apply (every_two_bytes
           (fun b c => (Z.land (Z.lor (Z.shiftl b 2) (Z.shiftr c 6)) 63
                        =? (b mod 16) * 4 + c / 64)%Z)); [|exact Hb|exact Hc].
  vm_compute. reflexivity.
Qed.

Lemma group_fourth c : isByte c -> Z.land c 63 = c mod 64.
Proof.
  intros _. replace 63 with (Z.ones 6) by reflexivity.
  rewrite Z.land_ones by lia. reflexivity.
Qed.

Lemma group_tail_one a : isByte a -> Z.land (Z.shiftl a 4) 63 = (a mod 4) * 16.
Proof.
  intros Ha. apply Z.eqb_eq.
  apply (every_byte (fun a => (Z.land (Z.shiftl a 4) 63 =? (a mod 4) * 16)%Z)); [|exact Ha].
  vm_compute. reflexivity.
Qed.

Lemma group_tail_two b : isByte b -> Z.land (Z.shiftl b 2) 63 = (b mod 16) * 4.
Proof.
  intros Hb. apply Z.eqb_eq.
  apply (every_byte (fun b => (Z.land (Z.shiftl b 2) 63 =? (b mod 16) * 4)%Z)); [|exact Hb].
  vm_compute. reflexivity.
Qed.

(** The sixty-four characters of the alphabet are distinct. *)
Lemma sextet_injective n m :
  Base64Url.sextet n = Base64Url.sextet m -> Z.land n 63 = Z.land m 63.
Proof.
  unfold Base64Url.sextet.
  assert (Hn : 0 <= Z.land n 63 < 64).
  { replace 63 with (Z.ones 6) by reflexivity. rewrite Z.land_ones by lia.
    apply Z.mod_pos_bound. reflexivity. }
  assert (Hm : 0 <= Z.land m 63 < 64).
  { replace 63 with (Z.ones 6) by reflexivity. rewrite Z.land_ones by lia.
    apply Z.mod_pos_bound. reflexivity. }
  revert Hn Hm. generalize (Z.land n 63) (Z.land m 63). intros i j Hi Hj Heq.
  assert (Hcheck :
    forallb
      (fun i => forallb
         (fun j =>
            match String.get i Base64Url.alphabet, String.get j Base64Url.alphabet with
            | Some x, Some y => if Ascii.eqb x y then Nat.eqb i j else true
            | _, _ => false
            end) (seq 0 64)) (seq 0 64) = true) by (vm_compute; reflexivity).
  rewrite forallb_forall in Hcheck.
  specialize (Hcheck (Z.to_nat i) ltac:(apply in_seq; lia)).
  rewrite forallb_forall in Hcheck.
  specialize (Hcheck (Z.to_nat j) ltac:(apply in_seq; lia)).
  destruct (String.get (Z.to_nat i) Base64Url.alphabet) as [x|]; [|discriminate].
  destruct (String.get (Z.to_nat j) Base64Url.alphabet) as [y|]; [|discriminate].
  subst y. rewrite Ascii.eqb_refl in Hcheck. apply Nat.eqb_eq in Hcheck. lia.
Qed.

Lemma string_cons_inv (a b : ascii) (s t : string) :
  String a s = String b t -> a = b /\ s = t.
Proof. intros H. injection H as Ha Hs. split; assumption. Qed.

Ltac sextets H :=
  repeat match type of H with
    | String _ _ = String _ _ =>
        let Hc := fresh "Hc" in
        apply string_cons_inv in H; destruct H as [Hc H];
        apply sextet_injective in Hc
    end.

(** The rendering loses nothing: two buffers with one rendering are equal. *)
Lemma encode_injective_upto n : forall xs ys,
  (List.length xs <= n)%nat ->
  Forall isByte xs -> Forall isByte ys ->
  Base64Url.encode xs = Base64Url.encode ys -> xs = ys.
Proof.
  induction n as [|n IH]; intros xs ys Hn Hxs Hys Heq.
  - destruct xs; [|simpl in Hn; lia].
    destruct ys as [|a [|b [|c rest]]]; [reflexivity | discriminate Heq ..].
  - destruct xs as [|a [|b [|c xs]]], ys as [|a' [|b' [|c' ys]]];
      cbn [Base64Url.encode] in Heq; try discriminate Heq; try reflexivity;
      repeat match goal with
        | H : Forall isByte (_ :: _) |- _ =>
            let Hb := fresh "Hb" in
            apply Forall_cons_iff in H; destruct H as [Hb H]
        end;
      sextets Heq;
      rewrite ?group_first, ?group_second, ?group_third, ?group_fourth,
        ?group_tail_one, ?group_tail_two in * by assumption;
      try discriminate Heq.
    + f_equal. unfold isByte in *. Z.div_mod_to_equations. lia.
    + unfold isByte in *.
      assert (a = a') by (Z.div_mod_to_equations; lia). subst a'.
      f_equal. f_equal. Z.div_mod_to_equations. lia.
    + assert (xs = ys) by (apply IH; [simpl in Hn; lia | assumption ..]).
      subst ys.
      unfold isByte in *.
      assert (a = a') by (Z.div_mod_to_equations; lia). subst a'.
      assert (b = b') by (Z.div_mod_to_equations; lia). subst b'.
      assert (c = c') by (Z.div_mod_to_equations; lia). subst c'. reflexivity.
Qed.

Lemma digest_bytes msg : Forall isByte (Sha256.digest msg).
Proof.
  unfold Sha256.digest. cbv zeta.
  generalize (fold_left Sha256.compress
                (Sha256.blocks (Nat.div (List.length (Sha256.pad msg)) 64)
                   (Sha256.words_of (Sha256.pad msg))) Sha256.initial).
  intros s.
  cbn [flat_map Sha256.be_bytes map rev seq app].
  repeat constructor;
    try (replace 255 with (Z.ones 8) by reflexivity; rewrite Z.land_ones by lia;
         apply Z.mod_pos_bound; reflexivity).
Qed.

(** X2. The base64url rendering adds no collisions: two tokens get the same
    hashed key only if their SHA-256 digests are the same. *)
Theorem defaultKeyHasher_collides_only_with_digest :
  forall token token',
    defaultKeyHasher token = defaultKeyHasher token' ->
    Sha256.digest (bytes_of_string token) = Sha256.digest (bytes_of_string token').
Proof.
  intros token token' Heq. unfold defaultKeyHasher in Heq. cbv zeta in Heq.
  apply (encode_injective_upto _ _ _ (Nat.le_refl _));
    [apply digest_bytes | apply digest_bytes | exact Heq].
Qed.

Lemma defaultKeyHasher_collides_only_with_digest_witness :
  Sha256.digest (bytes_of_string "123456") = Sha256.digest (bytes_of_string "123456").
Proof.
  apply (defaultKeyHasher_collides_only_with_digest "123456" "123456"). reflexivity.
Defined.

(** ** Issuing, then redeeming *)

(** The record a successful [generate] has just stored is the one a lookup
    of the returned token finds. *)
Lemma issued_record_found opts c w resp w1 :
  generateOneTimeTokenSession opts c w = (inr resp, w1) ->
  find (under (identifierOf opts (GenerateResponse.token resp))) (verifications w1)
  = Some (Verification.Make (nextId w)
            ("one-time-token:" ++ storeToken opts (GenerateResponse.token resp))
            (Session.token (SessionPair.session (context_session c)))
            (generate_now c + expiresIn opts * 60 * 1000)).
Proof.
  intros Hgen.
  destruct (generate_effect opts c w resp w1 Hgen) as (_ & Htable & _).
  rewrite Htable. cbn [find].
  match goal with
  | |- (if under _ ?v then _ else _) = _ =>
      change (identifierOf opts (GenerateResponse.token resp))
        with (Verification.identifier v);
      rewrite under_refl; reflexivity
  end.
Qed.

(** X3. Custom hasher round trip: with a caller-supplied [hash], a
    successful [generate] stores its record under "one-time-token:" followed
    by [hash] of the returned token, and returns the token itself.  A
    [verify] of that token, non-empty, before expiry and while the issuing
    session exists, succeeds. *)
Theorem custom_hasher_round_trip :
  forall opts hash c w resp w1,
    storeTokenOption opts = custom_hasher hash ->
    generateOneTimeTokenSession opts c w = (inr resp, w1) ->
    GenerateResponse.token resp = logicalToken opts c
    /\ (exists v,
          verifications w1 = v :: verifications w
          /\ Verification.identifier v
             = "one-time-token:" ++ hash (GenerateResponse.token resp))
    /\ forall vc found,
         body_token vc = GenerateResponse.token resp ->
         GenerateResponse.token resp <> "" ->
         (verify_now vc <= generate_now c + expiresIn opts * 60 * 1000)%Z ->
         internalAdapter.lookupSession w1
           (Session.token (SessionPair.session (context_session c))) = Some found ->
         succeeded (fst (verifyOneTimeTokenSession opts vc w1)) = true.
Proof.
  intros opts hash c w resp w1 Hcustom Hgen.
  assert (Hkey : storeToken opts (GenerateResponse.token resp)
                 = hash (GenerateResponse.token resp))
    by (unfold storeToken; rewrite Hcustom; reflexivity).
  destruct (generate_effect opts c w resp w1 Hgen) as (Htok & Htable & _).
  split; [exact Htok|]. split.
  - eexists. split; [exact Htable|]. cbn [Verification.identifier].
    rewrite Hkey. reflexivity.
  - intros vc found Hbody Hne Hlive Hsess.
    apply (proj1 (fresh_token_redeemed opts c w resp w1 vc found
                    Hgen Hbody Hne Hlive Hsess)).
Qed.

Lemma custom_hasher_round_trip_witness :
  (exists v,
     verifications
       (snd (generateOneTimeTokenSession
               (Demo.fixedToken "123456" (custom_hasher (fun t => t ++ "hashed")) true)
               (Demo.fromServer 1000) Demo.world0))
     = v :: verifications Demo.world0
     /\ Verification.identifier v = "one-time-token:123456hashed")
  /\ succeeded
       (fst (verifyOneTimeTokenSession
               (Demo.fixedToken "123456" (custom_hasher (fun t => t ++ "hashed")) true)
               (Demo.redeem "123456" 2000)
               (snd (generateOneTimeTokenSession
                       (Demo.fixedToken "123456" (custom_hasher (fun t => t ++ "hashed")) true)
                       (Demo.fromServer 1000) Demo.world0)))) = true.
Proof.
  pose proof (custom_hasher_round_trip
                (Demo.fixedToken "123456" (custom_hasher (fun t => t ++ "hashed")) true)
                (fun t => t ++ "hashed") (Demo.fromServer 1000) Demo.world0
                (GenerateResponse.Make "123456") _ eq_refl eq_refl)
    as (_ & Hstored & Hverify).
  split; [exact Hstored|].
  apply (Hverify (Demo.redeem "123456" 2000) Demo.current).
  - reflexivity.
  - discriminate.
  - cbn. lia.
  - reflexivity.
Defined.

(** X4. With [createSession] on, a successful [verify] creates one session
    for the user of the session the record was bound to, with the token the
    store drew; it answers with that session, the resolved user and the new
    session's token, and sets the cookie to the new session.  The session the
    token was issued from stays in the store; the adapter calls are lookup,
    deletion, session lookup, session creation, cookie. *)
Theorem new_session_issued :
  forall opts c w resp w1,
    createSession opts = true ->
    verifyOneTimeTokenSession opts c w = (inr resp, w1) ->
    exists v found,
      find (under (identifierOf opts (body_token c))) (verifications w) = Some v
      /\ internalAdapter.lookupSession w (Verification.value v) = Some found
      /\ VerifyResponse.user resp = SessionPair.user found
      /\ VerifyResponse.session resp
         = Session.Make (nextId w) (Session.userId (SessionPair.session found))
             (drawn_token c)
      /\ VerifyResponse.token resp = Some (drawn_token c)
      /\ sessions w1 = VerifyResponse.session resp :: sessions w
      /\ In (SessionPair.session found) (sessions w1)
      /\ users w1 = users w
      /\ cookies w1
         = SessionPair.Make (VerifyResponse.session resp) (SessionPair.user found)
           :: cookies w
      /\ journal w1
         = (journal w
              ++ issueCalls (identifierOf opts (body_token c)) v
                   (Session.userId (SessionPair.session found)) (drawn_token c))%list.
Proof.
  intros opts c w resp w1 Hon Hrun.
  destruct (tokenSchema (body_token c)) eqn:Hs.
  2:{ unfold verifyOneTimeTokenSession in Hrun. rewrite Hs in Hrun. discriminate Hrun. }
  destruct (find (under (identifierOf opts (body_token c))) (verifications w))
    as [v|] eqn:Hf.
  2:{ pose proof (verify_absent_invalid opts c w Hs) as Hinv.
      unfold absent in Hinv. rewrite find_as_filter in Hf.
      destruct (filter _ (verifications w)); [|discriminate Hf].
      rewrite Hrun in Hinv. specialize (Hinv eq_refl). discriminate Hinv. }
  rewrite (verify_found opts c w v Hs Hf) in Hrun. cbv zeta in Hrun.
  destruct (Verification.expiresAt v <? verify_now c)%Z; [discriminate Hrun|].
  destruct (internalAdapter.lookupSession w (Verification.value v)) as [found|] eqn:Hl;
    [|discriminate Hrun].
  rewrite Hon in Hrun. injection Hrun as <- <-.
  exists v, found. cbn. rewrite <- !app_assoc. cbn.
  repeat split; try reflexivity.
  - exact Hl.
  - right. unfold internalAdapter.lookupSession in Hl.
    destruct (find _ (sessions w)) as [s|] eqn:Hfs; [|discriminate Hl].
    destruct (find _ (users w)); [|discriminate Hl].
    injection Hl as <-. cbn. apply find_some in Hfs. tauto.
Qed.

Lemma new_session_issued_witness :
  exists v found,
    find (under (identifierOf Demo.defaults "k3J9xQ2mV7pL0aZ8bN4cR6tY1uW5eH3s"))
         (verifications Demo.issuedAt1000) = Some v
    /\ internalAdapter.lookupSession Demo.issuedAt1000 (Verification.value v) = Some found
    /\ found = Demo.current.
Proof.
  destruct (new_session_issued Demo.defaults
              (Demo.redeem "k3J9xQ2mV7pL0aZ8bN4cR6tY1uW5eH3s" 2000) Demo.issuedAt1000
              (VerifyResponse.Make (Session.Make 2 "u1" "durable-2") Demo.alice
                 (Some "durable-2"))
              _ eq_refl eq_refl)
    as (v & found & Hf & Hl & _).
  exists v, found. repeat split; try assumption.
  injection Hf as <-. cbn in Hl. injection Hl as <-. reflexivity.
Defined.

(** X5. The lifetime of a token, to the millisecond: issued at time [t0]
    under [expiresIn] minutes, a non-empty token whose session is still in
    the store is redeemed by a [verify] at any time up to and including
    [t0 + expiresIn * 60000], and refused as expired at any later time.
    With [expiresIn = 0] it can be redeemed within the millisecond it was
    issued in, and never after. *)
Theorem lifetime_window :
  forall opts c w resp w1 vc found,
    generateOneTimeTokenSession opts c w = (inr resp, w1) ->
    body_token vc = GenerateResponse.token resp ->
    GenerateResponse.token resp <> "" ->
    internalAdapter.lookupSession w1
      (Session.token (SessionPair.session (context_session c))) = Some found ->
    ((verify_now vc <= generate_now c + expiresIn opts * 60 * 1000)%Z ->
       succeeded (fst (verifyOneTimeTokenSession opts vc w1)) = true)
    /\ ((generate_now c + expiresIn opts * 60 * 1000 < verify_now vc)%Z ->
          fst (verifyOneTimeTokenSession opts vc w1) = inl TokenExpired)
    /\ (expiresIn opts = 0 ->
          (verify_now vc = generate_now c ->
             succeeded (fst (verifyOneTimeTokenSession opts vc w1)) = true)
          /\ ((generate_now c < verify_now vc)%Z ->
                fst (verifyOneTimeTokenSession opts vc w1) = inl TokenExpired)).
Proof.
  intros opts c w resp w1 vc found Hgen Hbody Hne Hsess.
  assert (Hok : (verify_now vc <= generate_now c + expiresIn opts * 60 * 1000)%Z ->
                succeeded (fst (verifyOneTimeTokenSession opts vc w1)) = true).
  { intros Hlive.
    apply (proj1 (fresh_token_redeemed opts c w resp w1 vc found
                    Hgen Hbody Hne Hlive Hsess)). }
  assert (Hlate : (generate_now c + expiresIn opts * 60 * 1000 < verify_now vc)%Z ->
                  fst (verifyOneTimeTokenSession opts vc w1) = inl TokenExpired).
  { intros Hpast.
    assert (Hs : tokenSchema (body_token vc) = true)
      by (apply tokenSchema_spec; rewrite Hbody; exact Hne).
    pose proof (issued_record_found opts c w resp w1 Hgen) as Hf.
    rewrite <- Hbody in Hf at 1.
    rewrite (verify_found opts vc w1 _ Hs Hf). cbv zeta.
    cbn [Verification.expiresAt]. apply Z.ltb_lt in Hpast. rewrite Hpast. reflexivity. }
  split; [exact Hok|]. split; [exact Hlate|].
  intros Hzero. split.
  - intros Hsame. apply Hok. rewrite Hzero. lia.
  - intros Hafter. apply Hlate. rewrite Hzero. lia.
Qed.

Lemma lifetime_window_witness :
  succeeded (fst (verifyOneTimeTokenSession Demo.defaults
                    (Demo.redeem "k3J9xQ2mV7pL0aZ8bN4cR6tY1uW5eH3s" 181000)
                    Demo.issuedAt1000)) = true
  /\ fst (verifyOneTimeTokenSession Demo.defaults
            (Demo.redeem "k3J9xQ2mV7pL0aZ8bN4cR6tY1uW5eH3s" 181001)
            Demo.issuedAt1000) = inl TokenExpired.
Proof.
  split.
  - refine (proj1 (lifetime_window Demo.defaults (Demo.fromServer 1000) Demo.world0
                     (GenerateResponse.Make "k3J9xQ2mV7pL0aZ8bN4cR6tY1uW5eH3s")
                     Demo.issuedAt1000
                     (Demo.redeem "k3J9xQ2mV7pL0aZ8bN4cR6tY1uW5eH3s" 181000)
                     Demo.current eq_refl eq_refl _ eq_refl) _);
      [discriminate | cbn; lia].
  - refine (proj1 (proj2 (lifetime_window Demo.defaults (Demo.fromServer 1000) Demo.world0
                     (GenerateResponse.Make "k3J9xQ2mV7pL0aZ8bN4cR6tY1uW5eH3s")
                     Demo.issuedAt1000
                     (Demo.redeem "k3J9xQ2mV7pL0aZ8bN4cR6tY1uW5eH3s" 181001)
                     Demo.current eq_refl eq_refl _ eq_refl)) _);
      [discriminate | cbn; lia].
Defined.

(** ** Failing redemptions *)

(** X6. Expiry is reported once: a [verify] that finds a record past its
    expiry deletes it and fails with "Token expired"; if that record was the
    only one under its key, every later [verify] of the token fails with
    "Invalid token" instead, whatever is served in between, as long as the
    key is not issued again. *)
Theorem expired_reported_once :
  forall opts c w v between c2,
    tokenSchema (body_token c) = true ->
    find (under (identifierOf opts (body_token c))) (verifications w) = Some v ->
    (Verification.expiresAt v < verify_now c)%Z ->
    atMostOne (identifierOf opts (body_token c)) w ->
    body_token c2 = body_token c ->
    Forall (fun call => issues opts call <> Some (identifierOf opts (body_token c)))
           between ->
    fst (verifyOneTimeTokenSession opts c w) = inl TokenExpired
    /\ fst (thenVerify opts between c2 (snd (verifyOneTimeTokenSession opts c w)))
       = inl InvalidToken.
Proof.
  intros opts c w v between c2 Hs Hf Hpast Hone Htok Hquiet. split.
  - rewrite (verify_found opts c w v Hs Hf). cbv zeta.
    apply Z.ltb_lt in Hpast. rewrite Hpast. reflexivity.
  - apply burnt_for_good with (k := identifierOf opts (body_token c)); auto.
Qed.

Lemma expired_reported_once_witness :
  fst (verifyOneTimeTokenSession Demo.defaults
         (Demo.redeem "k3J9xQ2mV7pL0aZ8bN4cR6tY1uW5eH3s" 200000) Demo.issuedAt1000)
  = inl TokenExpired
  /\ fst (thenVerify Demo.defaults [] (Demo.redeem "k3J9xQ2mV7pL0aZ8bN4cR6tY1uW5eH3s" 200001)
            (snd (verifyOneTimeTokenSession Demo.defaults
                    (Demo.redeem "k3J9xQ2mV7pL0aZ8bN4cR6tY1uW5eH3s" 200000)
                    Demo.issuedAt1000)))
     = inl InvalidToken.
Proof.
  apply (expired_reported_once Demo.defaults
           (Demo.redeem "k3J9xQ2mV7pL0aZ8bN4cR6tY1uW5eH3s" 200000) Demo.issuedAt1000
           (Verification.Make 1 "one-time-token:k3J9xQ2mV7pL0aZ8bN4cR6tY1uW5eH3s"
              "durable-1" 181000)
           [] (Demo.redeem "k3J9xQ2mV7pL0aZ8bN4cR6tY1uW5eH3s" 200001)).
  - reflexivity.
  - reflexivity.
  - cbn. lia.
  - unfold atMostOne. cbn. lia.
  - reflexivity.
  - constructor.
Defined.

(** What a call that passes the schema and finds nothing returns and
    leaves. *)
Lemma verify_nothing_found opts c w :
  tokenSchema (body_token c) = true ->
  find (under (identifierOf opts (body_token c))) (verifications w) = None ->
  verifyOneTimeTokenSession opts c w
  = (inl InvalidToken,
     internalAdapter.record (FindVerificationValue (identifierOf opts (body_token c))) w).
Proof.
  intros Hs Hf. step_handler. rewrite Hs.
  fold (under ("one-time-token:" ++ storeToken opts (body_token c))).
  fold (identifierOf opts (body_token c)). rewrite Hf. reflexivity.
Qed.

Lemma find_none_absent k w :
  find (under k) (verifications w) = None <-> absent k w.
Proof.
  unfold absent. rewrite find_as_filter.
  destruct (filter (under k) (verifications w)); cbn; split; congruence.
Qed.

(** ** What a call leaves alone *)

Lemma extends_refl {A : Type} (l : list A) : extends l l.
Proof. exists []. reflexivity. Qed.

Lemma extends_trans {A : Type} (l1 l2 l3 : list A) :
  extends l2 l1 -> extends l3 l2 -> extends l3 l1.
Proof.
  intros [f1 ->] [f2 ->]. exists (f2 ++ f1)%list. rewrite app_assoc. reflexivity.
Qed.

Lemma serve_sessions opts w call :
  extends (sessions (serve opts w call)) (sessions w)
  /\ extends (cookies (serve opts w call)) (cookies w)
  /\ users (serve opts w call) = users w.
Proof.
  destruct call as [c|c]; cbn [serve].
  - step_handler. destruct (disableClientRequest opts && request c); cbn;
      repeat split; try apply extends_refl.
  - destruct (tokenSchema (body_token c)) eqn:Hs.
    2:{ unfold verifyOneTimeTokenSession. rewrite Hs. cbn.
        repeat split; apply extends_refl. }
    destruct (find (under (identifierOf opts (body_token c))) (verifications w))
      as [v|] eqn:Hf.
    + rewrite (verify_found opts c w v Hs Hf). cbv zeta.
      destruct (Verification.expiresAt v <? verify_now c)%Z;
        [cbn; repeat split; apply extends_refl|].
      destruct (internalAdapter.lookupSession w (Verification.value v));
        [|cbn; repeat split; apply extends_refl].
      destruct (createSession opts); cbn;
        [|repeat split; apply extends_refl].
      repeat split; eexists [_]; reflexivity.
    + rewrite (verify_nothing_found opts c w Hs Hf). cbn.
      repeat split; apply extends_refl.
Qed.

(** X11. No call ever removes or changes a session, a user or a cookie
    already written: after any sequence of [generate] and [verify] calls the
    sessions and the cookies are the earlier ones with new entries in front,
    and the users are the same.  Redeeming a token does not end the session
    it was issued from. *)
Theorem sessions_only_grow :
  forall opts calls w,
    extends (sessions (serveAll opts calls w)) (sessions w)
    /\ extends (cookies (serveAll opts calls w)) (cookies w)
    /\ users (serveAll opts calls w) = users w
    /\ forall s, In s (sessions w) -> In s (sessions (serveAll opts calls w)).
Proof.
  intros opts calls.
  assert (H : forall w,
             extends (sessions (serveAll opts calls w)) (sessions w)
             /\ extends (cookies (serveAll opts calls w)) (cookies w)
             /\ users (serveAll opts calls w) = users w).
  { induction calls as [|call calls IH]; intros w.
    - repeat split; apply extends_refl.
    - cbn [serveAll fold_left].
      destruct (IH (serve opts w call)) as (Hs & Hc & Hu).
      destruct (serve_sessions opts w call) as (Hs1 & Hc1 & Hu1).
      repeat split.
      + eapply extends_trans; eassumption.
      + eapply extends_trans; eassumption.
      + unfold serveAll in Hu. rewrite Hu. exact Hu1. }
  intros w. destruct (H w) as (Hs & Hc & Hu).
  repeat split; try assumption.
  intros s Hin. destruct Hs as [front ->]. apply in_or_app. right. exact Hin.
Qed.

(** X16. The adapter calls of one [verify] call come in a fixed order.  The
    call makes none (body rejected), or only the lookup, or the lookup and
    the deletion of the record found, or these and a session lookup for the
    record's value, or these and the session creation and the cookie: it
    never deletes without a lookup, never looks for the session before the
    deletion, never creates a session without one found. *)
Theorem adapter_call_order :
  forall opts c w,
    exists calls,
      journal (snd (verifyOneTimeTokenSession opts c w)) = (journal w ++ calls)%list
      /\ (calls = []
          \/ calls = lookupOnly (identifierOf opts (body_token c))
          \/ exists v,
               find (under (identifierOf opts (body_token c))) (verifications w) = Some v
               /\ (calls = cleanupCalls (identifierOf opts (body_token c)) v
                   \/ calls = resolveCalls (identifierOf opts (body_token c)) v
                   \/ exists found,
                        internalAdapter.lookupSession w (Verification.value v) = Some found
                        /\ calls = issueCalls (identifierOf opts (body_token c)) v
                                     (Session.userId (SessionPair.session found))
                                     (drawn_token c))).
Proof.
  intros opts c w.
  destruct (tokenSchema (body_token c)) eqn:Hs.
  2:{ exists []. unfold verifyOneTimeTokenSession. rewrite Hs. cbn.
      rewrite app_nil_r. auto. }
  destruct (find (under (identifierOf opts (body_token c))) (verifications w))
    as [v|] eqn:Hf.
  - rewrite (verify_found opts c w v Hs Hf). cbv zeta.
    destruct (Verification.expiresAt v <? verify_now c)%Z.
    + exists (cleanupCalls (identifierOf opts (body_token c)) v). cbn.
      rewrite <- !app_assoc. split; [reflexivity|]. right. right. exists v. auto.
    + destruct (internalAdapter.lookupSession w (Verification.value v)) as [found|] eqn:Hl.
      * destruct (createSession opts).
        -- exists (issueCalls (identifierOf opts (body_token c)) v
                     (Session.userId (SessionPair.session found)) (drawn_token c)).
           cbn. rewrite <- !app_assoc. split; [reflexivity|].
           right. right. exists v. split; [reflexivity|]. right. right.
           exists found. auto.
        -- exists (resolveCalls (identifierOf opts (body_token c)) v). cbn.
           rewrite <- !app_assoc. split; [reflexivity|]. right. right. exists v. auto.
      * exists (resolveCalls (identifierOf opts (body_token c)) v). cbn.
        rewrite <- !app_assoc. split; [reflexivity|]. right. right. exists v. auto.
  - rewrite (verify_nothing_found opts c w Hs Hf). cbn. eexists. split; [reflexivity|].
    right. left. reflexivity.
Qed.

Lemma sessions_only_grow_witness :
  In Demo.signedIn
     (sessions (serveAll Demo.defaults
                  [Verify (Demo.redeem "k3J9xQ2mV7pL0aZ8bN4cR6tY1uW5eH3s" 2000)]
                  Demo.issuedAt1000)).
Proof.
  apply (proj2 (proj2 (proj2 (sessions_only_grow Demo.defaults
           [Verify (Demo.redeem "k3J9xQ2mV7pL0aZ8bN4cR6tY1uW5eH3s" 2000)]
           Demo.issuedAt1000)))).
  left. reflexivity.
Defined.

(** ** The endpoints under [/one-time-token] *)

(** The handler of [verifyOneTimeTokenSession], once its lookup has returned
    [v]: as [verify_found], without the schema. *)
Lemma handler_found opts c w v :
  find (under (identifierOf opts (body_token c))) (verifications w) = Some v ->
  verifyHandler opts c w =
  let w1 := internalAdapter.record (FindVerificationValue (identifierOf opts (body_token c))) w in
  let w2 := snd (internalAdapter.deleteVerificationValue (Verification.id v) w1) in
  if (Verification.expiresAt v <? verify_now c)%Z then (inl TokenExpired, w2)
  else
    let w3 := internalAdapter.record (FindSession (Verification.value v)) w2 in
    match internalAdapter.lookupSession w (Verification.value v) with
    | None => (inl SessionNotFound, w3)
    | Some session =>
        if createSession opts then
          let newSession :=
            Session.Make (nextId w) (Session.userId (SessionPair.session session))
              (drawn_token c) in
          (inr (VerifyResponse.Make newSession (SessionPair.user session)
                  (Some (drawn_token c))),
           snd (setSessionCookie (SessionPair.Make newSession (SessionPair.user session))
                  (snd (internalAdapter.createSession
                          (Session.userId (SessionPair.session session))
                          (drawn_token c) w3))))
        else
          (inr (VerifyResponse.Make (SessionPair.session session)
                  (SessionPair.user session) None), w3)
    end.
Proof.
  intros Hf.
  step_handler.
  fold (under ("one-time-token:" ++ storeToken opts (body_token c))).
  fold (identifierOf opts (body_token c)). rewrite Hf.
  destruct (Verification.expiresAt v <? verify_now c)%Z; [reflexivity|].
  unfold internalAdapter.lookupSession.
  cbn [fst snd verifications sessions users nextId cookies journal].
  destruct (find _ (sessions w)); [|reflexivity].
  destruct (find _ (users w)); [|reflexivity].
  destruct (createSession opts); reflexivity.
Qed.

Lemma oneTimeToken_generate options c w :
  OneTimeToken.generateOneTimeToken (OneTimeToken.oneTimeTokenSession options) c w
  = generateOneTimeTokenSession (oneTimeTokenSession options) c w.
Proof. destruct options as [o|]; reflexivity. Qed.

Lemma oneTimeToken_verify options c w :
  OneTimeToken.verifyOneTimeToken (OneTimeToken.oneTimeTokenSession options) c w
  = verifyHandler (oneTimeTokenSession options) c w.
Proof. destruct options as [o|]; reflexivity. Qed.

(** X13. Under the endpoints of [/one-time-token] the empty token is a
    token like any other: if the caller-supplied [generateToken] returns the
    empty string, [generateOneTimeToken] stores its record and
    [verifyOneTimeToken] of the empty token, before expiry and while the
    issuing session exists, redeems it; [verifyOneTimeTokenSession] rejects
    the same call at the schema. *)
Theorem oneTimeToken_redeems_empty_token :
  forall options c w generate vc found,
    OneTimeToken.generateToken (OneTimeToken.oneTimeTokenSession options) = Some generate ->
    generate (context_session c) c = "" ->
    orElse (OneTimeToken.disableClientRequest (OneTimeToken.oneTimeTokenSession options))
           false && request c = false ->
    body_token vc = "" ->
    (verify_now vc
     <= generate_now c
        + orElse (OneTimeToken.expiresIn (OneTimeToken.oneTimeTokenSession options)) 3
          * 60 * 1000)%Z ->
    internalAdapter.lookupSession w
      (Session.token (SessionPair.session (context_session c))) = Some found ->
    succeeded
      (fst (OneTimeToken.verifyOneTimeToken (OneTimeToken.oneTimeTokenSession options) vc
              (snd (OneTimeToken.generateOneTimeToken
                      (OneTimeToken.oneTimeTokenSession options) c w)))) = true
    /\ fst (verifyOneTimeTokenSession (oneTimeTokenSession options) vc
              (snd (OneTimeToken.generateOneTimeToken
                      (OneTimeToken.oneTimeTokenSession options) c w)))
       = inl InvalidInput.
Proof.
  intros options c w generate vc found Hgen Hempty Hallowed He Hlive Hsess.
  split; [|rewrite schema_rejects_empty by exact He; reflexivity].
  rewrite oneTimeToken_verify, oneTimeToken_generate.
  assert (Hopts :
    generateToken (oneTimeTokenSession options) = Some generate
    /\ disableClientRequest (oneTimeTokenSession options) && request c = false
    /\ expiresIn (oneTimeTokenSession options)
       = orElse (OneTimeToken.expiresIn (OneTimeToken.oneTimeTokenSession options)) 3).
  { destruct options as [o|]; cbn in *; auto. }
  destruct Hopts as (Hgen' & Hallowed' & Hexp).
  destruct (generateOneTimeTokenSession (oneTimeTokenSession options) c w)
    as [[e|resp] w1] eqn:Hrun.
  { exfalso. revert Hrun. unfold generateOneTimeTokenSession. rewrite Hallowed'.
    cbn. discriminate. }
  cbn [snd].
  destruct (generate_effect _ c w resp w1 Hrun) as (Htok & _ & Hsessions & Husers & _).
  assert (Hresp : GenerateResponse.token resp = "").
  { rewrite Htok. unfold logicalToken. rewrite Hgen'. exact Hempty. }
  pose proof (issued_record_found _ c w resp w1 Hrun) as Hf.
  rewrite Hresp in Hf. rewrite <- He in Hf at 1.
  rewrite (handler_found _ vc w1 _ Hf). cbv zeta.
  cbn [Verification.expiresAt Verification.value].
  rewrite Hexp. apply Z.ltb_ge in Hlive. rewrite Hlive.
  assert (Hsess1 : internalAdapter.lookupSession w1
                     (Session.token (SessionPair.session (context_session c)))
                   = Some found).
  { unfold internalAdapter.lookupSession in *. rewrite Hsessions, Husers. exact Hsess. }
  rewrite Hsess1. destruct (createSession (oneTimeTokenSession options)); reflexivity.
Qed.

Lemma oneTimeToken_redeems_empty_token_witness :
  succeeded
    (fst (OneTimeToken.verifyOneTimeToken
            (OneTimeToken.oneTimeTokenSession (Some Demo.emptyTokenOptions))
            (Demo.redeem "" 2000)
            (snd (OneTimeToken.generateOneTimeToken
                    (OneTimeToken.oneTimeTokenSession (Some Demo.emptyTokenOptions))
                    (Demo.fromServer 1000) Demo.world0)))) = true.
Proof.
  apply (proj1 (oneTimeToken_redeems_empty_token (Some Demo.emptyTokenOptions)
                  (Demo.fromServer 1000) Demo.world0 (fun _ _ => "")
                  (Demo.redeem "" 2000) Demo.current
                  eq_refl eq_refl eq_refl eq_refl ltac:(cbn; lia) eq_refl)).
Defined.

(** ** Two redemptions in flight: the token is burnt in every schedule *)

Lemma resume_keeps_atMostOne opts c k t w :
  atMostOne k w -> atMostOne k (snd (resume opts c t w)).
Proof.
  unfold atMostOne. rewrite resume_table.
  destruct t; auto using delete_keeps_atMostOne.
Qed.

(** A step of the call itself keeps it on its way. *)
Lemma resume_own_key opts c t w :
  atMostOne (identifierOf opts (body_token c)) w ->
  settlesKey (identifierOf opts (body_token c)) t w ->
  settlesKey (identifierOf opts (body_token c))
    (fst (resume opts c t w)) (snd (resume opts c t w)).
Proof.
  intros Hone Hinv. destruct t; cbn [settlesKey] in Hinv.
  - step_call.
    fold (under ("one-time-token:" ++ storeToken opts (body_token c))).
    fold (identifierOf opts (body_token c)).
    destruct (find _ _) as [v|] eqn:Hf.
    + destruct (Verification.expiresAt v <? verify_now c)%Z; cbn [settlesKey verifications];
        apply delete_found_clears; assumption.
    + cbn [settlesKey]. apply find_none_absent. exact Hf.
  - exact Hinv.
  - exact Hinv.
  - step_call. destruct (internalAdapter.lookupSession _ _); [|exact Hinv].
    destruct (createSession opts); exact Hinv.
  - exact Hinv.
  - exact Hinv.
  - exact Hinv.
Qed.

Lemma clears_after_other_delete k i j l :
  filter (under k) (filter (otherThan i) l) = [] ->
  filter (under k) (filter (otherThan i) (filter (otherThan j) l)) = [].
Proof.
  intros H. rewrite (filter_swap (otherThan i) (otherThan j)).
  apply delete_keeps_absent. exact H.
Qed.

(** A step of another call does not take it off its way. *)
Lemma resume_other_key opts c k t t' w :
  settlesKey k t w -> settlesKey k t (snd (resume opts c t' w)).
Proof.
  intros Hinv.
  destruct t; cbn [settlesKey] in *; try exact I;
    try (apply resume_keeps_absent; exact Hinv);
    rewrite resume_table; destruct t'; try exact Hinv;
    apply clears_after_other_delete; exact Hinv.
Qed.

Lemma drain_own_key opts c k t' n : forall t w,
  identifierOf opts (body_token c) = k ->
  atMostOne k w -> settlesKey k t w -> settlesKey k t' w ->
  atMostOne k (snd (drain n opts c t w))
  /\ settlesKey k (fst (drain n opts c t w)) (snd (drain n opts c t w))
  /\ settlesKey k t' (snd (drain n opts c t w)).
Proof.
  induction n as [|n IH]; intros t w Hk Hone Hown Hother; [auto|].
  cbn [drain].
  pose proof (resume_keeps_atMostOne opts c k t w Hone) as H1.
  pose proof (resume_own_key opts c t w) as H2. rewrite Hk in H2.
  specialize (H2 Hone Hown).
  pose proof (resume_other_key opts c k t' t w Hother) as H3.
  destruct (resume opts c t w) as [t1 w1]. apply IH; assumption.
Qed.

Lemma turns_keep_key opts c1 c2 k : forall schedule r,
  identifierOf opts (body_token c1) = k ->
  identifierOf opts (body_token c2) = k ->
  atMostOne k (shared r) ->
  settlesKey k (firstCall r) (shared r) ->
  settlesKey k (secondCall r) (shared r) ->
  atMostOne k (shared (fold_left (turn opts c1 c2) schedule r))
  /\ settlesKey k (firstCall (fold_left (turn opts c1 c2) schedule r))
       (shared (fold_left (turn opts c1 c2) schedule r))
  /\ settlesKey k (secondCall (fold_left (turn opts c1 c2) schedule r))
       (shared (fold_left (turn opts c1 c2) schedule r)).
Proof.
  induction schedule as [|who schedule IH]; intros r Hk1 Hk2 Hone H1 H2; [auto|].
  cbn [fold_left]. apply IH; try assumption; unfold turn; destruct who.
  - pose proof (resume_keeps_atMostOne opts c1 k (firstCall r) _ Hone) as H.
    destruct (resume opts c1 (firstCall r) (shared r)); exact H.
  - pose proof (resume_keeps_atMostOne opts c2 k (secondCall r) _ Hone) as H.
    destruct (resume opts c2 (secondCall r) (shared r)); exact H.
  - pose proof (resume_own_key opts c1 (firstCall r) (shared r)) as H.
    rewrite Hk1 in H. specialize (H Hone H1).
    destruct (resume opts c1 (firstCall r) (shared r)); exact H.
  - pose proof (resume_other_key opts c2 k (firstCall r) (secondCall r) _ H1) as H.
    destruct (resume opts c2 (secondCall r) (shared r)); exact H.
  - pose proof (resume_other_key opts c1 k (secondCall r) (firstCall r) _ H2) as H.
    destruct (resume opts c1 (firstCall r) (shared r)); exact H.
  - pose proof (resume_own_key opts c2 (secondCall r) (shared r)) as H.
    rewrite Hk2 in H. specialize (H Hone H2).
    destruct (resume opts c2 (secondCall r) (shared r)); exact H.
Qed.

(** X15. However two [verify] calls with one non-empty token interleave at
    their awaited adapter calls, both settle, and if the key held at most one
    record nothing is left under it once they have: a [verify] of the token
    that comes after them fails with "Invalid token". *)
Theorem race_burns_token :
  forall opts c1 c2 schedule w,
    body_token c2 = body_token c1 ->
    body_token c1 <> "" ->
    atMostOne (identifierOf opts (body_token c1)) w ->
    (exists r1 r2,
       firstCall (race opts c1 c2 schedule w) = Settled r1
       /\ secondCall (race opts c1 c2 schedule w) = Settled r2)
    /\ absent (identifierOf opts (body_token c1)) (shared (race opts c1 c2 schedule w))
    /\ forall c3,
         body_token c3 = body_token c1 ->
         fst (verifyOneTimeTokenSession opts c3 (shared (race opts c1 c2 schedule w)))
         = inl InvalidToken.
Proof.
  intros opts c1 c2 schedule w Htok Hne Hone.
  apply tokenSchema_spec in Hne.
  assert (Hb1 : begin c1 = AwaitLookup) by (unfold begin; rewrite Hne; reflexivity).
  assert (Hb2 : begin c2 = AwaitLookup) by (unfold begin; rewrite Htok, Hne; reflexivity).
  assert (Hk2 : identifierOf opts (body_token c2) = identifierOf opts (body_token c1))
    by (rewrite Htok; reflexivity).
  unfold race.
  destruct (turns_keep_key opts c1 c2 (identifierOf opts (body_token c1)) schedule
              {| firstCall := begin c1; secondCall := begin c2; shared := w |}
              eq_refl Hk2 Hone)
    as (Hone' & H1 & H2).
  { cbn [firstCall]. rewrite Hb1. exact I. }
  { cbn [secondCall]. rewrite Hb2. exact I. }
  set (r := fold_left (turn opts c1 c2) schedule _) in *.
  destruct (drain_own_key opts c1 _ (secondCall r) 5 (firstCall r) (shared r)
              eq_refl Hone' H1 H2) as (Hone1 & H1a & H2a).
  destruct (drain_settles opts c1 (firstCall r) (shared r)) as [r1 Hr1].
  destruct (drain 5 opts c1 (firstCall r) (shared r)) as [t1 w1].
  cbn [fst snd] in *. subst t1.
  destruct (drain_own_key opts c2 _ (Settled r1) 5 (secondCall r) w1
              Hk2 Hone1 H2a H1a) as (_ & H2b & H1b).
  destruct (drain_settles opts c2 (secondCall r) w1) as [r2 Hr2].
  destruct (drain 5 opts c2 (secondCall r) w1) as [t2 w2].
  cbn [fst snd firstCall secondCall shared] in *. subst t2.
  split; [exists r1, r2; split; reflexivity|].
  split; [exact H1b|].
  intros c3 H3. apply verify_absent_invalid; rewrite H3; assumption.
Qed.

Lemma race_burns_token_witness :
  absent (identifierOf Demo.defaults "k3J9xQ2mV7pL0aZ8bN4cR6tY1uW5eH3s")
    (shared (race Demo.defaults
               (Demo.redeem "k3J9xQ2mV7pL0aZ8bN4cR6tY1uW5eH3s" 2000)
               (Demo.redeem "k3J9xQ2mV7pL0aZ8bN4cR6tY1uW5eH3s" 2000)
               [true; false] Demo.issuedAt1000)).
Proof.
  apply (proj1 (proj2 (race_burns_token Demo.defaults
           (Demo.redeem "k3J9xQ2mV7pL0aZ8bN4cR6tY1uW5eH3s" 2000)
           (Demo.redeem "k3J9xQ2mV7pL0aZ8bN4cR6tY1uW5eH3s" 2000)
           [true; false] Demo.issuedAt1000 eq_refl ltac:(cbn; discriminate)
           ltac:(unfold atMostOne; cbn; lia)))).
Defined.

(** ** Issued and redeemed, counted *)

Lemma filter_loses {A : Type} (q : A -> bool) (l : list A) v :
  In v l -> q v = false -> (List.length (filter q l) < List.length l)%nat.
Proof.
  induction l as [|a l IH]; intros Hin Hq; [contradiction|].
  cbn [filter List.length]. destruct Hin as [-> | Hin].
  - rewrite Hq. pose proof (filter_shrinks q l). lia.
  - specialize (IH Hin Hq). destruct (q a); cbn [List.length]; lia.
Qed.

(** A call that redeems a token under [k] leaves one record fewer under [k],
    or fewer still. *)
Lemma redeeming_consumes opts k w call :
  redeems opts k w call = true ->
  (stored k (serve opts w call) < stored k w)%nat.
Proof.
  destruct call as [c|c]; cbn [redeems serve]; [discriminate|].
  intros H. apply andb_prop in H. destruct H as [Hk Hok].
  apply String.eqb_eq in Hk. subst k.
  assert (Hs : tokenSchema (body_token c) = true).
  { apply (past_schema opts c w _ eq_refl). intros E. rewrite E in Hok. discriminate. }
  unfold stored. rewrite verify_table, Hs.
  destruct (find (under (identifierOf opts (body_token c))) (verifications w))
    as [v|] eqn:Hf.
  - rewrite filter_swap. apply filter_loses with (v := v).
    + apply find_some in Hf. apply filter_In. exact Hf.
    + apply otherThan_self.
  - apply find_none_absent in Hf.
    rewrite (verify_absent_invalid opts c w Hs Hf) in Hok. discriminate.
Qed.

(** No call but a [generate] onto [k] adds a record under [k], and that one
    adds one. *)
Lemma serving_adds opts k w call :
  (stored k (serve opts w call) <= stored k w + issuances opts k [call])%nat.
Proof.
  unfold stored, issuances. destruct call as [c|c]; cbn [serve filter issues].
  - rewrite generate_table.
    destruct (disableClientRequest opts && request c); cbn [List.length]; [lia|].
    cbn [filter]. unfold under at 1. cbn [Verification.identifier].
    destruct (String.eqb _ k); cbn [List.length]; lia.
  - rewrite verify_table. cbn [List.length].
    destruct (tokenSchema _); [|lia].
    destruct (find _ _); [|lia].
    rewrite filter_swap. pose proof (filter_shrinks (otherThan (Verification.id t))
                                       (filter (under k) (verifications w))). lia.
Qed.

(** X18. No token is redeemed more often than it was issued: over any
    sequence of [generate] and [verify] calls, the successful [verify] calls
    whose token is stored under a key are at most the records that key held
    at the start plus the [generate] calls that stored one under it since. *)
Theorem redemptions_bounded :
  forall opts k calls w,
    (redemptions opts k calls w <= stored k w + issuances opts k calls)%nat.
Proof.
  intros opts k calls.
  induction calls as [|call calls IH]; intros w; [cbn; lia|].
  cbn [redemptions].
  specialize (IH (serve opts w call)).
  pose proof (serving_adds opts k w call) as Hadd.
  assert (Hsplit : issuances opts k (call :: calls)
                   = (issuances opts k [call] + issuances opts k calls)%nat).
  { unfold issuances. cbn [filter].
    destruct (match issues opts call with Some k' => String.eqb k' k | None => false end);
      reflexivity. }
  rewrite Hsplit.
  destruct (redeems opts k w call) eqn:Hr; [|lia].
  pose proof (redeeming_consumes opts k w call Hr) as Hless.
  assert (Hnone : issuances opts k [call] = 0%nat).
  { destruct call; [discriminate Hr | reflexivity]. }
  lia.
Qed.

(** ** Issuance, from the options object *)



(* ===================================================================== *)
(** * The endpoints over any store *)
(* ===================================================================== *)

(** ** The endpoints of this file are the general ones, at this file's store *)

Lemma model_storeToken opts c token :
  AnyStore.storeToken (modelOpts opts c) token = AnyStore.pure (storeToken opts token).
Proof.
  unfold AnyStore.storeToken, storeToken, modelOpts. cbn.
  destruct (storeTokenOption opts); reflexivity.
Qed.

Lemma model_generate opts c w :
  AnyStore.generateOneTimeTokenSession (modelStore "") (modelOpts opts c)
    (request c) (context_session c) (generate_now c) (random32 c) w
  = asEff (generateOneTimeTokenSession opts c) w.
Proof.
  unfold AnyStore.generateOneTimeTokenSession, generateOneTimeTokenSession, asEff.
  cbn [AnyStore.disableClientRequest modelOpts].
  destruct (disableClientRequest opts && request c); [reflexivity|].
  unfold AnyStore.andThen, AnyStore.produceToken.
  cbn [AnyStore.generateToken modelOpts].
  destruct (generateToken opts) as [generate|]; cbn;
    rewrite model_storeToken; reflexivity.
Qed.

Lemma model_verify opts gc c w :
  AnyStore.verifyOneTimeTokenSession (modelStore (drawn_token c)) (modelOpts opts gc)
    (body_token c) (verify_now c) w
  = asEff (verifyOneTimeTokenSession opts c) w.
Proof.
  unfold AnyStore.verifyOneTimeTokenSession, verifyOneTimeTokenSession, asEff.
  destruct (tokenSchema (body_token c)); [|reflexivity].
  unfold AnyStore.andThen. rewrite model_storeToken.
  unfold verifyHandler. step_handler. cbn.
  destruct (find _ (verifications w)) as [v|]; [|reflexivity].
  destruct (Verification.expiresAt v <? verify_now c)%Z; [reflexivity|].
  cbn. unfold internalAdapter.lookupSession. cbn.
  destruct (find _ (sessions w)); [|reflexivity].
  destruct (find _ (users w)); [|reflexivity].
  destruct (createSession opts); reflexivity.
Qed.

(** ** What holds whatever the store and the callbacks do *)

Section AnyStoreProperties.

Context {S X : Type}.
Variable a : AnyStore.Adapter S X.
Variable opts : AnyStore.Opts S X.

(** X7. On a miss [verify] answers "Invalid token" and stops: when the
    transform returns a key and the lookup of that key returns no record,
    the call fails with BAD_REQUEST "Invalid token" and makes no further
    adapter call, so that the store is left exactly as the lookup left it.
    This holds for every store, whatever its lookup does besides looking up,
    and for every hasher. *)
Theorem miss_is_invalid_token :
  forall token now s key s1 s2,
    token <> "" ->
    AnyStore.storeToken opts token s = (inr key, s1) ->
    AnyStore.findVerificationValue a ("one-time-token:" ++ key) s1 = (inr None, s2) ->
    AnyStore.verifyOneTimeTokenSession a opts token now s
    = (inl (AnyStore.Own InvalidToken), s2).
Proof.
  intros token now s key s1 s2 Hne Hkey Hmiss.
  apply tokenSchema_spec in Hne.
  unfold AnyStore.verifyOneTimeTokenSession, AnyStore.andThen.
  rewrite Hne, Hkey, Hmiss. reflexivity.
Qed.

(** X8. Every failure of [verify] is the rejection of the body, one of the
    plugin's three errors ("Invalid token", "Token expired", "Session not
    found", each a BAD_REQUEST), or what the hasher or an adapter call
    threw, passed on as it was. *)
Theorem verify_failures :
  forall token now s e s',
    AnyStore.verifyOneTimeTokenSession a opts token now s = (inl e, s') ->
    (exists message, e = AnyStore.Own (ValidationError message))
    \/ (In e [AnyStore.Own InvalidToken; AnyStore.Own TokenExpired;
              AnyStore.Own SessionNotFound]
        /\ forall own, e = AnyStore.Own own -> statusOf own = "BAD_REQUEST")
    \/ AnyStore.thrownInVerify a opts e.
Proof.
  intros token now s e s'.
  unfold AnyStore.verifyOneTimeTokenSession, AnyStore.andThen, AnyStore.raise,
    AnyStore.pure, AnyStore.thrownInVerify.
  destruct (tokenSchema token).
  2:{ intros H. injection H as <- _. left. eexists. reflexivity. }
  destruct (AnyStore.storeToken opts token s) as [[e0|key] s1] eqn:Hkey.
  { intros H. injection H as <- _. right. right. left. eauto. }
  destruct (AnyStore.findVerificationValue a ("one-time-token:" ++ key) s1)
    as [[e0|[v|]] s2] eqn:Hfind.
  - intros H. injection H as <- _. right. right. right. left. eauto.
  - destruct (Verification.expiresAt v <? now)%Z.
    + destruct (AnyStore.deleteVerificationValue a (Verification.id v) s2)
        as [[e0|[]] s3] eqn:Hdel.
      * intros H. injection H as <- _. right. right. right. right. left. eauto.
      * intros H. injection H as <- _. right. left.
        split; [right; left; reflexivity|].
        intros own Hown. injection Hown as <-. reflexivity.
    + destruct (AnyStore.deleteVerificationValue a (Verification.id v) s2)
        as [[e0|[]] s3] eqn:Hdel.
      { intros H. injection H as <- _. right. right. right. right. left. eauto. }
      destruct (AnyStore.findSession a (Verification.value v) s3)
        as [[e0|[session|]] s4] eqn:Hsess.
      * intros H. injection H as <- _. right. right. do 3 right. left. eauto.
      * destruct (AnyStore.createSessionOption opts); [|discriminate].
        destruct (AnyStore.createSession a
                    (Session.userId (SessionPair.session session)) s4)
          as [[e0|newSession] s5] eqn:Hnew.
        { intros H. injection H as <- _. right. right. do 4 right. left. eauto. }
        destruct (AnyStore.setSessionCookie a
                    (SessionPair.Make newSession (SessionPair.user session)) s5)
          as [[e0|[]] s6] eqn:Hcookie; [|discriminate].
        intros H. injection H as <- _. right. right. do 5 right. eauto.
      * intros H. injection H as <- _. right. left.
        split; [right; right; left; reflexivity|].
        intros own Hown. injection Hown as <-. reflexivity.
  - intros H. injection H as <- _. right. left.
    split; [left; reflexivity|].
    intros own Hown. injection Hown as <-. reflexivity.
Qed.

(** X9. What can make [generate] fail.  With [disableClientRequest] set and
    a request present it fails with "Client requests are disabled" before
    anything runs.  Otherwise it fails only with what [generateToken], the
    hasher or [createVerificationValue] threw, passed on as it was; and when
    the three return, it succeeds, with the token the generator gave and the
    store as the creation left it. *)
Theorem generate_failures :
  forall request session now random32 s,
    (AnyStore.disableClientRequest opts && request = true ->
       AnyStore.generateOneTimeTokenSession a opts request session now random32 s
       = (inl (AnyStore.Own ClientRequestsDisabled), s))
    /\ (AnyStore.disableClientRequest opts && request = false ->
        (forall e s',
           AnyStore.generateOneTimeTokenSession a opts request session now random32 s
           = (inl e, s') ->
           AnyStore.thrownInGenerate a opts session random32 e)
        /\ (forall token s1 key s2 v s3,
              AnyStore.produceToken opts session random32 s = (inr token, s1) ->
              AnyStore.storeToken opts token s1 = (inr key, s2) ->
              AnyStore.createVerificationValue a
                (Session.token (SessionPair.session session))
                ("one-time-token:" ++ key)
                (now + AnyStore.expiresIn opts * 60 * 1000) s2 = (inr v, s3) ->
              AnyStore.generateOneTimeTokenSession a opts request session now random32 s
              = (inr (GenerateResponse.Make token), s3))).
Proof.
  intros request session now random32 s.
  unfold AnyStore.generateOneTimeTokenSession, AnyStore.andThen, AnyStore.raise,
    AnyStore.pure, AnyStore.thrownInGenerate.
  split; intros Hgate; rewrite Hgate; [reflexivity|]. split.
  - intros e s'.
    destruct (AnyStore.produceToken opts session random32 s) as [[e0|token] s1] eqn:Htok.
    { intros H. injection H as <- _. left. eauto. }
    destruct (AnyStore.storeToken opts token s1) as [[e0|key] s2] eqn:Hkey.
    { intros H. injection H as <- _. right. left. eauto. }
    destruct (AnyStore.createVerificationValue a _ _ _ s2) as [[e0|v] s3] eqn:Hnew;
      [|discriminate].
    intros H. injection H as <- _. right. right. eauto 8.
  - intros token s1 key s2 v s3 Htok Hkey Hnew. rewrite Htok, Hkey, Hnew. reflexivity.
Qed.

End AnyStoreProperties.

Lemma miss_is_invalid_token_witness :
  AnyStore.verifyOneTimeTokenSession (modelStore "durable-2")
    (modelOpts Demo.defaults (Demo.fromServer 1000)) "never-issued" 2000 Demo.issuedAt1000
  = (inl (AnyStore.Own InvalidToken),
     internalAdapter.record (FindVerificationValue "one-time-token:never-issued")
       Demo.issuedAt1000).
Proof.
  apply (miss_is_invalid_token (modelStore "durable-2")
           (modelOpts Demo.defaults (Demo.fromServer 1000))
           "never-issued" 2000 Demo.issuedAt1000 "never-issued" Demo.issuedAt1000).
  - discriminate.
  - reflexivity.
  - reflexivity.
Defined.

Lemma verify_failures_witness :
  (exists message, AnyStore.Own (X := Empty_set) SessionNotFound
                   = AnyStore.Own (ValidationError message))
  \/ (In (AnyStore.Own (X := Empty_set) SessionNotFound)
         [AnyStore.Own InvalidToken; AnyStore.Own TokenExpired;
          AnyStore.Own SessionNotFound]
      /\ forall own, AnyStore.Own (X := Empty_set) SessionNotFound = AnyStore.Own own ->
                     statusOf own = "BAD_REQUEST")
  \/ AnyStore.thrownInVerify (modelStore "durable-2")
       (modelOpts Demo.defaults (Demo.fromServer 1000)) (AnyStore.Own SessionNotFound).
Proof.
  apply (verify_failures (modelStore "durable-2")
           (modelOpts Demo.defaults (Demo.fromServer 1000))
           "k3J9xQ2mV7pL0aZ8bN4cR6tY1uW5eH3s" 2000 Demo.signedOut
           (AnyStore.Own SessionNotFound)
           (snd (verifyOneTimeTokenSession Demo.defaults
                   (Demo.redeem "k3J9xQ2mV7pL0aZ8bN4cR6tY1uW5eH3s" 2000) Demo.signedOut))).
  reflexivity.
Defined.

Lemma generate_failures_witness :
  AnyStore.generateOneTimeTokenSession (modelStore "")
    (modelOpts Demo.serverOnly (Demo.fromClient 1000))
    true Demo.current 1000 "k3J9xQ2mV7pL0aZ8bN4cR6tY1uW5eH3s" Demo.world0
  = (inl (AnyStore.Own ClientRequestsDisabled), Demo.world0).
Proof.
  apply (proj1 (generate_failures (modelStore "")
                  (modelOpts Demo.serverOnly (Demo.fromClient 1000))
                  true Demo.current 1000 "k3J9xQ2mV7pL0aZ8bN4cR6tY1uW5eH3s" Demo.world0)).
  reflexivity.
Defined.
